(** * server_utils / auto / RequestHandler.py

    A shallow embedding of the request handling daemon: the requests
    directory is an explicit file system state, every effect of the
    Python code (logging, sleeping, calls to the update service, file
    removal, process exit) is recorded in an explicit trace, and Python
    exceptions and [sys.exit] are the two abnormal results of a small
    state-and-error monad.

    Conventions.
    - Python 2 byte strings are [string]; comparison is byte-wise
      ([String.leb]).
    - Library functions the source calls ([os.path.join],
      [os.path.abspath], [str.split], [str.startswith], ...) are written
      out after the Python standard library's [posixpath].
    - What the operating system, the YAML parser, the directory lock and
      the update service decide on their own (a removal that is refused,
      a lock that times out, a call that fails) is an oracle of the
      environment record [Env]. *)

From Stdlib Require Import ZArith Lia List Ascii String.
From stdpp Require Import base list strings gmap sorting.

Open Scope string_scope.
Open Scope list_scope.

(** ** Strings and paths *)

Module Py.

(** [s.startswith(p)]. *)
Fixpoint startswith (s p : string) {struct p} : bool :=
  match p with
  | EmptyString => true
  | String c p' =>
      match s with
      | String c' s' => (Ascii.eqb c c' && startswith s' p')%bool
      | EmptyString => false
      end
  end.

(** [s.endswith("/")]. *)
Fixpoint endswith_slash (s : string) : bool :=
  match s with
  | EmptyString => false
  | String c EmptyString => Ascii.eqb c "/"
  | String _ s' => endswith_slash s'
  end.

(** [s.split("/")]: always at least one segment. *)
Fixpoint split_slash (s : string) : list string :=
  match s with
  | EmptyString => [EmptyString]
  | String c s' =>
      if Ascii.eqb c "/" then EmptyString :: split_slash s'
      else match split_slash s' with
           | seg :: rest => String c seg :: rest
           | [] => [String c EmptyString]
           end
  end.

(** ["/".join(comps)]. *)
Definition join_slash (comps : list string) : string := String.concat "/" comps.

(** [s.split("/")[0]]. *)
Definition first_segment (s : string) : string :=
  match split_slash s with
  | seg :: _ => seg
  | [] => EmptyString
  end.

(** [posixpath.join(a, b)]. *)
Definition path_join (a b : string) : string :=
  if startswith b "/" then b
  else if (String.eqb a "" || endswith_slash a)%bool then a +:+ b
  else a +:+ "/" +:+ b.

(** [posixpath.join(a, b, c)]. *)
Definition path_join3 (a b c : string) : string := path_join (path_join a b) c.

(** [posixpath.basename(p)]: what follows the last slash. *)
Definition basename (p : string) : string := List.last (split_slash p) EmptyString.

(** The number of leading slashes [posixpath.normpath] keeps. *)
Definition initial_slashes (path : string) : nat :=
  if startswith path "/" then
    if (startswith path "//" && negb (startswith path "///"))%bool then 2 else 1
  else 0.

(** One round of the component loop of [posixpath.normpath]. *)
Definition norm_step (slashes : nat) (new_comps : list string) (comp : string)
  : list string :=
  if (String.eqb comp "" || String.eqb comp ".")%bool then new_comps
  else if (negb (String.eqb comp "..")
           || (Nat.eqb slashes 0 && Nat.eqb (length new_comps) 0)
           || (negb (Nat.eqb (length new_comps) 0)
               && String.eqb (List.last new_comps "") ".."))%bool
       then new_comps ++ [comp]
       else removelast new_comps.

Fixpoint slashes_string (n : nat) : string :=
  match n with
  | O => EmptyString
  | S n' => String "/" (slashes_string n')
  end.

(** [posixpath.normpath(path)]. *)
Definition normpath (path : string) : string :=
  if String.eqb path "" then "."
  else
    let n := initial_slashes path in
    let comps := fold_left (norm_step n) (split_slash path) [] in
    let path' := slashes_string n +:+ join_slash comps in
    if String.eqb path' "" then "." else path'.

(** [posixpath.abspath(path)], with the working directory made explicit. *)
Definition abspath (cwd path : string) : string :=
  if startswith path "/" then normpath path
  else normpath (path_join cwd path).

End Py.

(** An entry name as [os.listdir] returns it: not empty, no slash, and
    neither of the special entries. *)
Fixpoint has_slash (s : string) : bool :=
  match s with
  | EmptyString => false
  | String c s' => (Ascii.eqb c "/" || has_slash s')%bool
  end.

Definition is_entry_name (n : string) : bool :=
  (negb (has_slash n) && negb (String.eqb n "") && negb (String.eqb n ".")
   && negb (String.eqb n ".."))%bool.

Fixpoint strip_prefix (p s : string) : option string :=
  match p with
  | EmptyString => Some s
  | String c p' =>
      match s with
      | String c' s' => if Ascii.eqb c c' then strip_prefix p' s' else None
      | EmptyString => None
      end
  end.

(** [l.sort()] on a list of strings: Python 2 compares them byte-wise,
    which is [String.leb], here as the relation [String.le]. *)
Definition py_sort (l : list string) : list string := merge_sort String.le l.

(** ** YAML documents, as [yaml.safe_load] returns them *)

#[warnings="-register-all"]
Inductive Yaml : Type :=
| YNull
| YBool (b : bool)
| YNum (z : Z)
| YStr (s : string)
| YList (items : list Yaml)
| YDict (items : list (Yaml * Yaml)).

Definition is_dict (y : Yaml) : bool :=
  match y with YDict _ => true | _ => false end.

Definition is_basestring (y : Yaml) : bool :=
  match y with YStr _ => true | _ => false end.

Definition key_is (k : string) (y : Yaml) : bool :=
  match y with YStr s => String.eqb s k | _ => false end.

(** [d.get(k)] on the items of a dictionary. *)
Fixpoint dict_lookup (k : string) (items : list (Yaml * Yaml)) : option Yaml :=
  match items with
  | [] => None
  | (k', v) :: rest => if key_is k k' then Some v else dict_lookup k rest
  end.

(** [k in request]. *)
Definition has_key (y : Yaml) (k : string) : bool :=
  match y with
  | YDict items => match dict_lookup k items with Some _ => true | None => false end
  | _ => false
  end.

(** [y == s] for a string [s]. *)
Definition yaml_eq_str (y : Yaml) (s : string) : bool :=
  match y with YStr s' => String.eqb s' s | _ => false end.

Definition chars_of (s : string) : list Yaml :=
  map (fun c => YStr (String c EmptyString)) (list_ascii_of_string s).

(** ** The world: file system, trace, environment *)

Inductive Node : Type :=
| Dir
| File (content : option Yaml).
(* [content] is what [yaml.safe_load] makes of the file; [None] when the
   file does not parse. *)

Abbreviation FS := (gmap string Node).

Definition is_file (fs : FS) (p : string) : bool :=
  match fs !! p with Some (File _) => true | _ => false end.

Definition is_dir (fs : FS) (p : string) : bool :=
  match fs !! p with Some Dir => true | _ => false end.

(** The name of [p] as an entry of the directory [d], if it is one. *)
Definition child_name (d p : string) : option string :=
  match strip_prefix (if Py.endswith_slash d then d else d +:+ "/") p with
  | Some n => if is_entry_name n then Some n else None
  | None => None
  end.

(** The entries of [d], in the order the file system gives them. *)
Definition dir_entries (fs : FS) (d : string) : list string :=
  omap (child_name d) (map fst (map_to_list fs)).

(** Calls to the update service ([SafeUpdater]). *)
Inductive Call : Type :=
| update_contest (contest : string) (update generate_new update_users : bool)
| generate_task (repo : string) (update allow_clone : bool)
| update_users.

#[global] Instance Call_eq_dec : EqDecision Call.
Proof. solve_decision. Defined.

Inductive Exn : Type :=
| Exception (msg : string)
| OSError
| IOError
| YAMLError
| TimeoutError
| KeyError
| TypeError
| AttributeError
| ScopeError
| ServiceError (c : Call).

Inductive Level : Type := INFO | WARNING | ERROR | CRITICAL.

Inductive Arg : Type :=
| AStr (s : string)
| ANum (n : Z)
| ATrace (e : Exn).

Inductive Event : Type :=
| EvLog (lvl : Level) (fmt : string) (args : list Arg)
| EvHandle (path : string)
| EvLock (lock_path : string)
| EvUnlock (lock_path : string)
| EvScopeEnter
| EvScopeExit
| EvCall (c : Call)
| EvRemove (path : string)
| EvSleep (seconds : Z).

(** Configuration ([server_utils.config]), the working directory, and
    what the surroundings decide: whether [os.remove] is refused for a
    path, whether the directory lock times out while a request is read,
    whether the update scope cannot be entered for a repository, whether
    a call to the update service fails. *)
Record Env : Type := {
  cwd : string;
  REQUESTS_DIR : string;
  REQUEST_COOLING : Z;
  ACTIVE_CONTESTS : list string;
  CLONE_DIR : string;
  remove_fails : string -> bool;
  lock_times_out : string -> bool;
  scope_fails : string -> bool;
  call_fails : Call -> bool
}.

(** ** The monad: state, trace, exceptions and exit *)

Inductive Result (A : Type) : Type :=
| Ret (a : A)
| Raise (e : Exn)
| Exit (code : Z).
Arguments Ret {A} a.
Arguments Raise {A} e.
Arguments Exit {A} code.

Definition M (A : Type) : Type := FS -> Result A * FS * list Event.

Definition ret {A} (a : A) : M A := fun fs => (Ret a, fs, []).
Definition raise {A} (e : Exn) : M A := fun fs => (Raise e, fs, []).
Definition sys_exit {A} (code : Z) : M A := fun fs => (Exit code, fs, []).
Definition emit (e : Event) : M unit := fun fs => (Ret tt, fs, [e]).

Definition bind {A B} (m : M A) (k : A -> M B) : M B :=
  fun fs =>
    match m fs with
    | (Ret a, fs1, t1) =>
        match k a fs1 with (r, fs2, t2) => (r, fs2, t1 ++ t2) end
    | (Raise e, fs1, t1) => (Raise e, fs1, t1)
    | (Exit c, fs1, t1) => (Exit c, fs1, t1)
    end.

Notation "x <- m ;; k" := (bind m (fun x => k))
  (at level 100, m at next level, right associativity).
Notation "m ;; k" := (bind m (fun _ => k))
  (at level 100, right associativity).

(** [try: m  except Exception as e: h e].  [SystemExit] is not an
    [Exception] and passes through. *)
Definition try_except {A} (m : M A) (h : Exn -> M A) : M A :=
  fun fs =>
    match m fs with
    | (Raise e, fs1, t1) =>
        match h e fs1 with (r, fs2, t2) => (r, fs2, t1 ++ t2) end
    | other => other
    end.

(** [try: m  finally: f]. *)
Definition try_finally {A} (m : M A) (f : M unit) : M A :=
  fun fs =>
    match m fs with
    | (r, fs1, t1) =>
        match f fs1 with
        | (Ret _, fs2, t2) => (r, fs2, t1 ++ t2)
        | (Raise e, fs2, t2) => (Raise e, fs2, t1 ++ t2)
        | (Exit c, fs2, t2) => (Exit c, fs2, t1 ++ t2)
        end
    end.

(** [for x in l: body x]. *)
Fixpoint for_each {A} (l : list A) (body : A -> M unit) : M unit :=
  match l with
  | [] => ret tt
  | x :: rest => body x ;; for_each rest body
  end.

(** [filter(p, l)]. *)
Fixpoint filterM {A} (p : A -> M bool) (l : list A) : M (list A) :=
  match l with
  | [] => ret []
  | x :: rest =>
      b <- p x ;;
      rest' <- filterM p rest ;;
      ret (if b then x :: rest' else rest')
  end.

(** [enumerate(l)]. *)
Definition enumerate {A} (l : list A) : list (nat * A) :=
  combine (seq 0 (length l)) l.

Definition logger_info (fmt : string) (args : list Arg) : M unit :=
  emit (EvLog INFO fmt args).
Definition logger_warning (fmt : string) (args : list Arg) : M unit :=
  emit (EvLog WARNING fmt args).
Definition logger_error (fmt : string) (args : list Arg) : M unit :=
  emit (EvLog ERROR fmt args).
Definition logger_critical (fmt : string) (args : list Arg) : M unit :=
  emit (EvLog CRITICAL fmt args).

(** [time.sleep]. *)
Definition sleep (seconds : Z) : M unit := emit (EvSleep seconds).

(** [d[k]]: [KeyError] for a missing key, [TypeError] when [d] is not a
    dictionary. *)
Definition getitem (d : Yaml) (k : string) : M Yaml :=
  match d with
  | YDict items =>
      match dict_lookup k items with
      | Some v => ret v
      | None => raise KeyError
      end
  | _ => raise TypeError
  end.

(** The string a string method is called on; [AttributeError] otherwise. *)
Definition as_str (y : Yaml) : M string :=
  match y with
  | YStr s => ret s
  | _ => raise AttributeError
  end.

(** The items of [for x in y]. *)
Definition iter_items (y : Yaml) : M (list Yaml) :=
  match y with
  | YList items => ret items
  | YDict items => ret (map fst items)
  | YStr s => ret (chars_of s)
  | _ => raise TypeError
  end.

(** ** inotify, as pyinotify presents it *)

Definition IN_CLOSE_WRITE : Z := 0x8.
Definition IN_CREATE : Z := 0x100.
Definition IN_MODIFY : Z := 0x2.
Definition IN_DELETE : Z := 0x200.

(** A kernel event on a watched directory: its mask bit, the directory
    and the entry it is about. *)
Record InotifyEvent : Type := {
  ev_mask : Z;
  ev_path : string;
  ev_name : string
}.

Definition ev_pathname (ev : InotifyEvent) : string :=
  Py.path_join (ev_path ev) (ev_name ev).

(** What happens around the daemon while it watches: another process
    writes or removes a file, or the kernel raises an event. *)
Inductive Step : Type :=
| FsWrite (path : string) (node : Node)
| FsDelete (path : string)
| Kernel (ev : InotifyEvent).

(** The handler object: [self.dir] and [self.contests]. *)
Record RequestHandler : Type := {
  dir : string;
  contests : gset string
}.

(** ** The program *)

Section Program.

Variable env : Env.

(** *** Operating system, lock and update service *)

Definition resolve (p : string) : string := Py.abspath (cwd env) p.

Definition os_path_isfile (p : string) : M bool :=
  fun fs => (Ret (is_file fs (resolve p)), fs, []).

Definition os_path_isdir (p : string) : M bool :=
  fun fs => (Ret (is_dir fs (resolve p)), fs, []).

(** [os.listdir(d)]. *)
Definition os_listdir (d : string) : M (list string) :=
  fun fs =>
    if is_dir fs (resolve d) then (Ret (dir_entries fs (resolve d)), fs, [])
    else (Raise OSError, fs, []).

(** [os.remove(p)]. *)
Definition os_remove (p : string) : M unit :=
  fun fs =>
    if (is_file fs (resolve p) && negb (remove_fails env (resolve p)))%bool
    then (Ret tt, delete (resolve p) fs, [EvRemove (resolve p)])
    else (Raise OSError, fs, []).

(** [with open(p) as stream: yaml.safe_load(stream)]. *)
Definition open_safe_load (p : string) : M Yaml :=
  fun fs =>
    match fs !! resolve p with
    | Some (File (Some y)) => (Ret y, fs, [])
    | Some (File None) => (Raise YAMLError, fs, [])
    | _ => (Raise IOError, fs, [])
    end.

(** [lock.lock(timeout=...)] taken to read [request_path]. *)
Definition lock_lock (lock_path request_path : string) : M unit :=
  if lock_times_out env request_path then raise TimeoutError
  else emit (EvLock lock_path).

Definition lock_unlock (lock_path : string) : M unit :=
  emit (EvUnlock lock_path).

(** One call on the [SafeUpdater]. *)
Definition call (c : Call) : M unit :=
  emit (EvCall c) ;;
  if call_fails env c then raise (ServiceError c) else ret tt.

(** [with SafeUpdater() as updater: body]. *)
Definition with_SafeUpdater {A} (repo : string) (body : M A) : M A :=
  (if scope_fails env repo then raise ScopeError else emit EvScopeEnter) ;;
  try_finally body (emit EvScopeExit).

(** *** RequestHandler *)

Definition my_init (_dir : string) (contests : list string) : M RequestHandler :=
  logger_info "Initializing RequestHandler for directory %s" [AStr _dir] ;;
  let self := {| dir := resolve _dir; contests := list_to_set contests |} in
  d <- os_path_isdir _dir ;;
  if negb d then raise (Exception "Directory not found: %s")
  else ret self.

Definition _get_request_content (self : RequestHandler) (path : string) : M Yaml :=
  let lock_path := Py.path_join (dir self) ".lock" in
  lock_lock lock_path path ;;
  try_finally (open_safe_load path) (lock_unlock lock_path).

Definition _validate_request (request : Yaml) : M unit :=
  if negb (is_dict request) then
    raise (Exception "Expected request to be a dictionary, but it is %s")
  else if negb (has_key request "user") then
    raise (Exception "Not found 'user' key in request.")
  else
    user <- getitem request "user" ;;
    if negb (is_basestring user) then
      raise (Exception "Expected user to be a string, but it is %s")
    else if negb (has_key request "repo") then
      raise (Exception "Not found 'repo' key in request.")
    else
      repo <- getitem request "repo" ;;
      if negb (is_basestring repo) then
        raise (Exception "Expected repo to be a string, but it is %s")
      else
        repo_s <- as_str repo ;;
        let repo_type := Py.first_segment repo_s in
        if negb (bool_decide (repo_type ∈ ["tasks"; "contests"; "users"])) then
          raise (Exception "Expected repository type to be 'tasks', 'contests', or 'users': %s")
        else ret tt.

(** The inner loop of [_get_task_contests]: one [contest] more in the
    result for every entry of the manifest whose path is [task_repo]. *)
Fixpoint matching_entries (task_repo contest : string) (tasks : list Yaml)
  : M (list string) :=
  match tasks with
  | [] => ret []
  | task :: rest =>
      p <- getitem task "path" ;;
      more <- matching_entries task_repo contest rest ;;
      ret (if yaml_eq_str p task_repo then contest :: more else more)
  end.

Fixpoint task_contests_loop (task_repo : string) (cs : list string)
  : M (list string) :=
  match cs with
  | [] => ret []
  | contest :: rest =>
      let module_path := Py.path_join3 (CLONE_DIR env) contest "module.yaml" in
      contest_params <- open_safe_load module_path ;;
      tasks <- getitem contest_params "tasks" ;;
      items <- iter_items tasks ;;
      found <- matching_entries task_repo contest items ;;
      more <- task_contests_loop task_repo rest ;;
      ret (found ++ more)
  end.

Definition _get_task_contests (self : RequestHandler) (task_repo : string)
  : M (list string) :=
  task_contests_loop task_repo (elements (contests self)).

Definition _update_safely (self : RequestHandler) (repo repo_type : string)
  : M unit :=
  if String.eqb repo_type "contests" then
    if bool_decide (repo ∈ contests self) then
      logger_info "Updating contest %s..." [AStr repo] ;;
      call (update_contest repo true true true) ;;
      logger_info "Updated contest %s" [AStr repo]
    else
      logger_warning "Not updating contest %s because it is not active." [AStr repo]
  else if String.eqb repo_type "users" then
    logger_info "Updating users repository..." [] ;;
    call update_users ;;
    logger_info "Updated users repository." [] ;;
    logger_info "Updating all contests to reflect the changed users." [] ;;
    for_each (elements (contests self)) (fun contest =>
      logger_info "Updating contest %s..." [AStr contest] ;;
      call (update_contest contest true true false) ;;
      logger_info "Updated contest %s" [AStr contest]) ;;
    logger_info "Finished updating users and contests." []
  else if String.eqb repo_type "tasks" then
    logger_info "Checking whether task %s is in an active contest." [AStr repo] ;;
    task_contests <- _get_task_contests self repo ;;
    match task_contests with
    | [] => logger_info "Skipping task %s, it is not active." [AStr repo]
    | _ =>
        logger_info "Task %s is active. Generating..." [AStr repo] ;;
        call (generate_task repo true true) ;;
        logger_info "Finished generating task %s" [AStr repo] ;;
        logger_info "Updating the task's contests..." [] ;;
        for_each task_contests (fun contest =>
          logger_info "Updating contest %s..." [AStr contest] ;;
          call (update_contest contest true true false) ;;
          logger_info "Finished updating contest %s" [AStr contest]) ;;
        logger_info "Finished updating task %s and its contests." [AStr repo]
    end
  else raise (Exception "Unknown repository type: %s").

Definition _act (self : RequestHandler) (request : Yaml) : M unit :=
  repo_v <- getitem request "repo" ;;
  repo <- as_str repo_v ;;
  let repo_type := Py.first_segment repo in
  try_except
    (with_SafeUpdater repo (_update_safely self repo repo_type))
    (fun e => logger_error "Error while acting on %s\n%s" [AStr repo; ATrace e]).

Definition handle_request (self : RequestHandler) (request_path : string) : M bool :=
  emit (EvHandle request_path) ;;
  logger_info "Starting to handle %s" [AStr (Py.basename request_path)] ;;
  r <- try_except
         (request <- _get_request_content self request_path ;; ret (Some request))
         (fun e =>
            logger_error "Error while opening %s\n%s" [AStr request_path; ATrace e] ;;
            ret None) ;;
  match r with
  | None => ret false
  | Some request =>
      v <- try_except
             (_validate_request request ;; ret true)
             (fun e =>
                logger_error "Error while validating %s\n%s"
                             [AStr request_path; ATrace e] ;;
                ret false) ;;
      if v then _act self request ;; ret true else ret false
  end.

Definition _delete_request (self : RequestHandler) (path : string) : M unit :=
  let path := resolve path in
  f <- os_path_isfile path ;;
  if negb f then
    logger_error "Deleting request %s failed, it is not a file." [AStr path]
  else if negb (Py.startswith path (dir self)) then
    logger_critical "Won't delete: %s" [AStr path] ;;
    sys_exit 1
  else
    try_except (os_remove path)
      (fun e => logger_error "Deleting request %s failed:\n%s" [AStr path; ATrace e]).

(** The list [handle_existing_requests] works through: all entries, as
    full paths, regular files only, sorted. *)
Definition list_requests (self : RequestHandler) : M (list string) :=
  files_list <- os_listdir (dir self) ;;
  let files_list := map (Py.path_join (dir self)) files_list in
  files_list <- filterM os_path_isfile files_list ;;
  ret (py_sort files_list).

(** The body of the loop of [handle_existing_requests]. *)
Definition handle_one (self : RequestHandler) (total : nat) (ip : nat * string)
  : M unit :=
  let '(index, path) := ip in
  success <- handle_request self path ;;
  (if negb success then
     logger_error "Failed to handle %s" [AStr (Py.basename path)]
   else ret tt) ;;
  _delete_request self path ;;
  logger_info "Finished %s out of %s requests."
              [ANum (Z.of_nat index + 1); ANum (Z.of_nat total)] ;;
  logger_info "Going to sleep for %s seconds." [ANum (REQUEST_COOLING env)] ;;
  sleep (REQUEST_COOLING env) ;;
  logger_info "Woke up." [].

Definition handle_existing_requests (self : RequestHandler) : M unit :=
  logger_info "Going to handle all existing requests." [] ;;
  files_list <- list_requests self ;;
  logger_info "Found %s files to handle." [ANum (Z.of_nat (length files_list))] ;;
  for_each (enumerate files_list) (handle_one self (length files_list)).

Definition process_IN_CLOSE_WRITE (self : RequestHandler) (event : InotifyEvent)
  : M unit :=
  let request_name := Py.basename (ev_pathname event) in
  logger_info "Received new request: %s" [AStr request_name] ;;
  handle_existing_requests self.

(** pyinotify's dispatch of an event to the handler: the method named
    after the event if the class has one; [RequestHandler] defines
    [process_IN_CLOSE_WRITE] only, every other event ends in the
    inherited [process_default], which does nothing. *)
Definition process_event (self : RequestHandler) (event : InotifyEvent) : M unit :=
  if Z.eqb (ev_mask event) IN_CLOSE_WRITE then process_IN_CLOSE_WRITE self event
  else ret tt.

(** One round of [notifier.loop()] for a watch on [watched] with [mask]:
    the kernel reports an event on the watched directory only when its
    bit is in the mask of the watch. *)
Definition notifier_step (self : RequestHandler) (watched : string) (mask : Z)
    (s : Step) : M unit :=
  match s with
  | FsWrite p node => fun fs => (Ret tt, <[p := node]> fs, [])
  | FsDelete p => fun fs => (Ret tt, delete p fs, [])
  | Kernel ev =>
      if (String.eqb (ev_path ev) watched
          && negb (Z.eqb (Z.land (ev_mask ev) mask) 0))%bool
      then process_event self ev
      else ret tt
  end.

(** [watch_forever], run on the steps that occur while it blocks. *)
Definition watch_forever (self : RequestHandler) (steps : list Step) : M unit :=
  let mask := IN_CREATE in
  logger_info "Watching directory forever..." [] ;;
  for_each steps (notifier_step self (dir self) mask).

Definition main (steps : list Step) : M Z :=
  handler <- my_init (REQUESTS_DIR env) (ACTIVE_CONTESTS env) ;;
  watch_forever handler steps ;;
  ret 0%Z.

End Program.

(** ** Reading results and traces *)

Definition result_of {A} (x : Result A * FS * list Event) : Result A := x.1.1.
Definition fs_of {A} (x : Result A * FS * list Event) : FS := x.1.2.
Definition trace_of {A} (x : Result A * FS * list Event) : list Event := x.2.

(** The requests [handle_request] was entered for, in order. *)
Definition handled_of (t : list Event) : list string :=
  omap (fun e => match e with EvHandle p => Some p | _ => None end) t.

(** The calls made on the update service, in order. *)
Definition calls_of (t : list Event) : list Call :=
  omap (fun e => match e with EvCall c => Some c | _ => None end) t.

Definition sleeps_of (t : list Event) : list Z :=
  omap (fun e => match e with EvSleep s => Some s | _ => None end) t.

Definition removed_of (t : list Event) : list string :=
  omap (fun e => match e with EvRemove p => Some p | _ => None end) t.

(** The events of the drain loop itself: entering a request, removing
    its file, sleeping. *)
Definition outer (e : Event) : bool :=
  match e with
  | EvHandle _ | EvRemove _ | EvSleep _ => true
  | _ => false
  end.

Definition skeleton (t : list Event) : list Event := List.filter outer t.

(** The calls of a planned sequence that are made when a failing call
    ends the sequence. *)
Fixpoint attempted (env : Env) (plan : list Call) : list Call :=
  match plan with
  | [] => []
  | c :: rest => c :: (if call_fails env c then [] else attempted env rest)
  end.

(** The file system after the removals of a drain over [l]. *)
Definition after_removals (env : Env) (fs : FS) (l : list string) : FS :=
  fold_left (fun fs p => if remove_fails env p then fs else delete p fs) l fs.

(** ** Notions used in the statements *)

Definition entry (c : string) : Prop := is_entry_name c = true.

(** One or two slashes, then entry names separated by single slashes. *)
Definition nf (n : nat) (cs : list string) : string :=
  Py.slashes_string n +:+ Py.join_slash cs.

Definition normal_abs (d : string) : Prop :=
  exists n cs, (n = 1 \/ n = 2) /\ Forall entry cs /\ d = nf n cs.

Definition dir_prefix (d : string) : string :=
  if Py.endswith_slash d then d else d +:+ "/".

(** A computation is [quiet] when it leaves the file system alone, does
    not exit the process, and emits none of the events of the drain
    loop. *)
Definition quiet {A} (m : M A) : Prop :=
  forall fs, exists r t,
    m fs = (r, fs, t) /\ (forall c, r <> Exit c) /\ skeleton t = [].

(** A quiet computation that returns. *)
Definition returns {A} (m : M A) : Prop :=
  forall fs, exists a t, m fs = (Ret a, fs, t) /\ skeleton t = [].

(** [d] is an absolute path that [normpath] leaves as it is. *)
Definition is_normal_abs (d : string) : bool :=
  (Py.startswith d "/" && String.eqb (Py.normpath d) d)%bool.

(** What [_validate_request] accepts. *)
Definition valid_request (request : Yaml) : Prop :=
  exists items user repo,
    request = YDict items
    /\ dict_lookup "user" items = Some (YStr user)
    /\ dict_lookup "repo" items = Some (YStr repo)
    /\ Py.first_segment repo ∈ ["tasks"; "contests"; "users"].

Definition is_child (d p : string) : bool :=
  match child_name d p with Some _ => true | None => false end.

(** The list a drain works through, as a function of the file system. *)
Definition request_files (self : RequestHandler) (fs : FS) : list string :=
  py_sort (List.filter (is_file fs)
             (map (Py.path_join (dir self)) (dir_entries fs (dir self)))).

(** What one round of the drain loop shows of itself. *)
Definition drain_events (env : Env) (p : string) : list Event :=
  EvHandle p :: (if remove_fails env p then [] else [EvRemove p])
  ++ [EvSleep (REQUEST_COOLING env)].

(** The ["path"] values of the entries of the manifest of [contest];
    [None] when reading the manifest raises. *)
Definition entry_path (task : Yaml) : option Yaml :=
  match task with
  | YDict items => dict_lookup "path" items
  | _ => None
  end.

Fixpoint entry_paths (tasks : list Yaml) : option (list Yaml) :=
  match tasks with
  | [] => Some []
  | task :: rest =>
      match entry_path task, entry_paths rest with
      | Some p, Some ps => Some (p :: ps)
      | _, _ => None
      end
  end.

Definition manifest_paths (env : Env) (fs : FS) (contest : string)
  : option (list Yaml) :=
  match fs !! resolve env (Py.path_join3 (CLONE_DIR env) contest "module.yaml") with
  | Some (File (Some (YDict items))) =>
      match dict_lookup "tasks" items with
      | Some (YList tasks) => entry_paths tasks
      | Some (YDict kvs) => entry_paths (map fst kvs)
      | Some (YStr s) => entry_paths (chars_of s)
      | _ => None
      end
  | _ => None
  end.

(** How many entries of the manifest of [contest] have the path [repo]. *)
Definition occurrences (repo : string) (paths : list Yaml) : nat :=
  length (List.filter (fun p => yaml_eq_str p repo) paths).

Definition listed_times (env : Env) (fs : FS) (repo contest : string) : nat :=
  match manifest_paths env fs contest with
  | Some ps => occurrences repo ps
  | None => 0
  end.

Definition lists_task (env : Env) (fs : FS) (repo contest : string) : bool :=
  negb (Nat.eqb (listed_times env fs repo contest) 0).

Definition contest_call (contest : string) : Call :=
  update_contest contest true true false.

(** The file system after what other processes do during the watch. *)
Definition outside_steps (steps : list Step) (fs : FS) : FS :=
  fold_left (fun fs s =>
               match s with
               | FsWrite p node => <[p := node]> fs
               | FsDelete p => delete p fs
               | Kernel _ => fs
               end) steps fs.

(** Decide the comparisons of string literals in the goal. *)
Ltac eval_eqb :=
  repeat match goal with
         | |- context [String.eqb ?a ?b] =>
             let v := eval vm_compute in (String.eqb a b) in
             change (String.eqb a b) with v
         end;
  cbv iota.

(** ** Example worlds *)

Module Ex.

Definition env0 : Env := {|
  cwd := "/home/cms";
  REQUESTS_DIR := "/srv/requests";
  REQUEST_COOLING := 5;
  ACTIVE_CONTESTS := ["contests/A"; "contests/B"; "contests/C"];
  CLONE_DIR := "/srv/clones";
  remove_fails := fun _ => false;
  lock_times_out := fun _ => false;
  scope_fails := fun _ => false;
  call_fails := fun _ => false
|}.

(** [os.remove] is refused for one request file. *)
Definition env_refused : Env := {|
  cwd := "/home/cms";
  REQUESTS_DIR := "/srv/requests";
  REQUEST_COOLING := 5;
  ACTIVE_CONTESTS := ["contests/A"; "contests/B"; "contests/C"];
  CLONE_DIR := "/srv/clones";
  remove_fails := fun p => String.eqb p "/srv/requests/a.yaml";
  lock_times_out := fun _ => false;
  scope_fails := fun _ => false;
  call_fails := fun _ => false
|}.

(** The update service fails on [update_users]. *)
Definition env_down : Env := {|
  cwd := "/home/cms";
  REQUESTS_DIR := "/srv/requests";
  REQUEST_COOLING := 5;
  ACTIVE_CONTESTS := ["contests/A"; "contests/B"; "contests/C"];
  CLONE_DIR := "/srv/clones";
  remove_fails := fun _ => false;
  lock_times_out := fun _ => false;
  scope_fails := fun _ => false;
  call_fails := fun c => bool_decide (c = update_users)
|}.

Definition request (user repo : string) : Node :=
  File (Some (YDict [(YStr "user", YStr user); (YStr "repo", YStr repo)])).

Definition manifest (paths : list string) : Node :=
  File (Some (YDict [(YStr "tasks",
                      YList (map (fun p => YDict [(YStr "path", YStr p)]) paths))])).

Definition handler : RequestHandler :=
  {| dir := "/srv/requests"; contests := list_to_set (ACTIVE_CONTESTS env0) |}.

(** Two requests, a held lock file and a subdirectory in the requests
    directory; contest B lists task T twice. *)
Definition fs0 : FS := list_to_map [
  ("/srv/requests", Dir);
  ("/srv/requests/b.yaml", request "dana" "users/all");
  ("/srv/requests/a.yaml", request "dana" "tasks/T");
  ("/srv/requests/.lock", File (Some (YStr "lock")));
  ("/srv/requests/sub", Dir);
  ("/srv/requests/sub/z.yaml", request "dana" "users");
  ("/srv/requests_old/x.yaml", request "dana" "users");
  ("/srv/other/y.yaml", request "dana" "users");
  ("/srv/clones/contests/A/module.yaml", manifest ["tasks/T"; "tasks/U"]);
  ("/srv/clones/contests/B/module.yaml", manifest ["tasks/T"; "tasks/T"]);
  ("/srv/clones/contests/C/module.yaml", manifest ["tasks/V"])].

(** One request only. *)
Definition fs_one : FS := list_to_map [
  ("/srv/requests", Dir);
  ("/srv/requests/a.yaml", request "dana" "contests/A")].

(** Every manifest lists a task once at most. *)
Definition fs_clean : FS := list_to_map [
  ("/srv/requests", Dir);
  ("/srv/requests/a.yaml", request "dana" "tasks/T");
  ("/srv/clones/contests/A/module.yaml", manifest ["tasks/T"; "tasks/U"]);
  ("/srv/clones/contests/B/module.yaml", manifest ["tasks/T"]);
  ("/srv/clones/contests/C/module.yaml", manifest ["tasks/V"])].

Definition close_write (name : string) : InotifyEvent :=
  {| ev_mask := IN_CLOSE_WRITE; ev_path := "/srv/requests"; ev_name := name |}.

Definition create (name : string) : InotifyEvent :=
  {| ev_mask := IN_CREATE; ev_path := "/srv/requests"; ev_name := name |}.

End Ex.

(** ** The claims as the specification states them *)

(** C1 as stated: every enumerated file is handled at most once and is
    gone when the drain ends. *)
Definition claim_C1 (env : Env) (self : RequestHandler) (fs : FS) : Prop :=
  forall l, result_of (list_requests env self fs) = Ret l ->
  forall p, p ∈ l ->
    count_occ string_dec
      (handled_of (trace_of (handle_existing_requests env self fs))) p <= 1
    /\ fs_of (handle_existing_requests env self fs) !! p = None.

(** C2 as stated: outside the requests directory, exit without removal;
    not a file, log and go on. *)
Definition claim_C2 (env : Env) (self : RequestHandler) (fs : FS) (path : string)
  : Prop :=
  let p := resolve env path in
  (Py.startswith p (dir self) = false ->
   exists c, c <> 0%Z
     /\ result_of (_delete_request env self path fs) = Exit c
     /\ fs_of (_delete_request env self path fs) = fs)
  /\ (is_file fs p = false ->
      result_of (_delete_request env self path fs) = Ret tt).

(** C5 as stated: the enumeration is the regular files of the directory
    without the lock file, sorted. *)
Definition claim_C5 (env : Env) (self : RequestHandler) (fs : FS) : Prop :=
  exists l,
    result_of (list_requests env self fs) = Ret l
    /\ Sorted String.le l
    /\ forall p, p ∈ l <->
         is_file fs p = true /\ is_child (dir self) p = true
         /\ p <> Py.path_join (dir self) ".lock".

(** C6 as stated, for a task path listed by some active contest. *)
Definition claim_C6 (env : Env) (self : RequestHandler) (fs : FS) (repo : string)
  : Prop :=
  let calls := calls_of (trace_of (_update_safely env self repo "tasks" fs)) in
  count_occ Call_eq_dec calls (generate_task repo true true) = 1
  /\ forall c, c ∈ contests self ->
       count_occ Call_eq_dec calls (contest_call c)
       = if lists_task env fs repo c then 1 else 0.

(** C7 as stated. *)
Definition claim_C7 (env : Env) (self : RequestHandler) (fs : FS) (repo : string)
  : Prop :=
  let calls := calls_of (trace_of (_update_safely env self repo "users" fs)) in
  count_occ Call_eq_dec calls update_users = 1
  /\ forall c, c ∈ contests self ->
       count_occ Call_eq_dec calls (contest_call c) = 1.

(** C8 as stated: one sleep less than there are requests. *)
Definition claim_C8 (env : Env) (self : RequestHandler) (fs : FS) : Prop :=
  length (sleeps_of (trace_of (handle_existing_requests env self fs)))
  = length (request_files self fs) - 1.

(** Entering a request and sleeping, in order. *)
Definition pace (t : list Event) : list Event :=
  List.filter (fun e => match e with
                        | EvHandle _ | EvSleep _ => true
                        | _ => false
                        end) t.

(** The first thing each branch of [_update_safely] does. *)
Definition branch_opening (self : RequestHandler) (repo : string) : Event :=
  if String.eqb repo "contests" then
    if bool_decide (repo ∈ contests self)
    then EvLog INFO "Updating contest %s..." [AStr repo]
    else EvLog WARNING "Not updating contest %s because it is not active."
               [AStr repo]
  else if String.eqb repo "users" then
    EvLog INFO "Updating users repository..." []
  else
    EvLog INFO "Checking whether task %s is in an active contest." [AStr repo].

(** What reading the file at [path] under the directory lock gives. *)
Definition read_result (env : Env) (fs : FS) (path : string) : Result Yaml :=
  if lock_times_out env path then Raise TimeoutError
  else match fs !! resolve env path with
       | Some (File (Some y)) => Ret y
       | Some (File None) => Raise YAMLError
       | _ => Raise IOError
       end.

(** The first lines of the trace of [handle_request]. *)
Definition handle_prologue (path : string) : list Event :=
  [EvHandle path; EvLog INFO "Starting to handle %s" [AStr (Py.basename path)]].

(** Exceptions of class [Exception] proper, as [raise Exception(...)]
    makes them. *)
Definition plain_exception {A} (r : Result A) : Prop :=
  exists msg, r = Raise (Exception msg).

Definition no_plain {A} (m : M A) : Prop :=
  forall fs, ~ plain_exception (result_of (m fs)).

(** A requests directory that holds a subdirectory only. *)
Definition fs_empty : FS :=
  <["/srv/requests" := Dir]> (<["/srv/requests/sub" := Dir]> ∅).

(** The lock is held elsewhere for too long while [b.yaml] is read. *)
Definition env_locked : Env := {|
  cwd := "/home/cms";
  REQUESTS_DIR := "/srv/requests";
  REQUEST_COOLING := 5;
  ACTIVE_CONTESTS := ["contests/A"; "contests/B"; "contests/C"];
  CLONE_DIR := "/srv/clones";
  remove_fails := fun _ => false;
  lock_times_out := fun p => String.eqb p "/srv/requests/b.yaml";
  scope_fails := fun _ => false;
  call_fails := fun _ => false
|}.

(** * Proofs *)

(** * Facts about strings and paths *)

Section StringFacts.

#[local] Arguments String.append : simpl nomatch.

Lemma append_nil_r (s : string) : s +:+ "" = s.
Proof. induction s as [|c s IH]; simpl; [reflexivity | now rewrite IH]. Qed.

Lemma append_assoc (a b c : string) : (a +:+ b) +:+ c = a +:+ (b +:+ c).
Proof. induction a as [|x a IH]; simpl; [reflexivity | now rewrite IH]. Qed.

Lemma startswith_cons (c' c : ascii) (s p : string) :
  Py.startswith (String c' s) (String c p) = (Ascii.eqb c c' && Py.startswith s p)%bool.
Proof. reflexivity. Qed.

Lemma startswith_nil_l (c : ascii) (p : string) :
  Py.startswith "" (String c p) = false.
Proof. reflexivity. Qed.

Lemma startswith_append (p r : string) : Py.startswith (p +:+ r) p = true.
Proof.
  induction p as [|c p IH]; simpl; [reflexivity|].
  now rewrite Ascii.eqb_refl.
Qed.

Lemma startswith_spec (s p : string) :
  Py.startswith s p = true <-> exists r, s = p +:+ r.
Proof.
  split.
  - revert s; induction p as [|c p IH]; intros s H; simpl in *; [now exists s|].
    destruct s as [|c' s]; [discriminate|].
    apply andb_prop in H as [E H]. apply Ascii.eqb_eq in E as ->.
    destruct (IH s H) as [r ->]. now exists r.
  - intros [r ->]. apply startswith_append.
Qed.

Lemma strip_prefix_spec (p s r : string) :
  strip_prefix p s = Some r <-> s = p +:+ r.
Proof.
  revert s; induction p as [|c p IH]; intros s; simpl.
  - split; congruence.
  - destruct s as [|c' s]; [split; discriminate|].
    destruct (Ascii.eqb_spec c c') as [->|Hne].
    + rewrite IH. split; [now intros -> | congruence].
    + split; [discriminate | congruence].
Qed.

Lemma ascii_compare_refl (c : ascii) : Ascii.compare c c = Eq.
Proof.
  pose proof (Ascii.compare_antisym c c) as H.
  destruct (Ascii.compare c c); simpl in H; congruence.
Qed.

Lemma leb_append (p a b : string) :
  String.leb (p +:+ a) (p +:+ b) = String.leb a b.
Proof.
  unfold String.leb. induction p as [|c p IH]; simpl; [reflexivity|].
  now rewrite ascii_compare_refl.
Qed.

Lemma le_append (p a b : string) : String.le (p +:+ a) (p +:+ b) <-> String.le a b.
Proof. unfold String.le. now rewrite leb_append. Qed.

Lemma split_slash_nonempty (s : string) : Py.split_slash s <> [].
Proof.
  induction s as [|c s IH]; simpl; [discriminate|].
  destruct (Ascii.eqb c "/"); [discriminate|].
  destruct (Py.split_slash s); [contradiction | discriminate].
Qed.

Lemma split_slash_noslash (s : string) :
  has_slash s = false -> Py.split_slash s = [s].
Proof.
  induction s as [|c s IH]; simpl; [reflexivity|].
  destruct (Ascii.eqb c "/"); simpl; [discriminate|].
  intros H. now rewrite (IH H).
Qed.

Lemma split_slash_app (a b : string) :
  Py.split_slash (a +:+ String "/" b) = Py.split_slash a ++ Py.split_slash b.
Proof.
  induction a as [|c a IH]; simpl; [reflexivity|].
  rewrite IH. destruct (Ascii.eqb c "/"); [reflexivity|].
  pose proof (split_slash_nonempty a) as Hne.
  destruct (Py.split_slash a); [contradiction | reflexivity].
Qed.

Lemma split_slash_comps (s : string) :
  Forall (fun c => has_slash c = false) (Py.split_slash s).
Proof.
  induction s as [|c s IH]; simpl; [repeat constructor|].
  destruct (Ascii.eqb c "/") eqn:E; [constructor; [reflexivity | exact IH]|].
  destruct (Py.split_slash s) as [|seg rest]; [repeat constructor; simpl; now rewrite E|].
  inversion IH; subst. constructor; [simpl; now rewrite E | assumption].
Qed.

Lemma first_segment_noslash (s : string) :
  has_slash s = false -> Py.first_segment s = s.
Proof. intros H. unfold Py.first_segment. now rewrite split_slash_noslash. Qed.

(** ** Normalised absolute paths *)

Lemma entry_inv (c : string) :
  entry c ->
  has_slash c = false /\ String.eqb c "" = false /\ String.eqb c "." = false
  /\ String.eqb c ".." = false.
Proof.
  unfold entry, is_entry_name. intros H.
  repeat (apply andb_prop in H as [H ?]).
  repeat split; now apply negb_true_iff.
Qed.

Lemma entry_head (c : string) :
  entry c -> exists a r, c = String a r /\ Ascii.eqb a "/" = false.
Proof.
  intros H. destruct (entry_inv c H) as (Hs & He & _).
  destruct c as [|a r]; [discriminate|]. exists a, r. split; [reflexivity|].
  simpl in Hs. now apply orb_false_iff in Hs as [? _].
Qed.

Lemma join_slash_cons2 (x y : string) (l : list string) :
  Py.join_slash (x :: y :: l) = x +:+ String "/" (Py.join_slash (y :: l)).
Proof. reflexivity. Qed.

Lemma join_slash_snoc (cs : list string) (c : string) :
  cs <> [] -> Py.join_slash (cs ++ [c]) = Py.join_slash cs +:+ String "/" c.
Proof.
  induction cs as [|x cs IH]; [congruence|]. intros _.
  destruct cs as [|y cs]; [reflexivity|].
  change ((x :: y :: cs) ++ [c]) with (x :: y :: (cs ++ [c])).
  rewrite !join_slash_cons2.
  change (y :: cs ++ [c]) with ((y :: cs) ++ [c]).
  rewrite IH by discriminate. rewrite append_assoc. reflexivity.
Qed.

Lemma join_slash_head (cs : list string) :
  Forall entry cs ->
  Py.join_slash cs = "" \/
  exists a r, Py.join_slash cs = String a r /\ Ascii.eqb a "/" = false.
Proof.
  intros H. destruct cs as [|c cs]; [now left|]. right.
  inversion H as [|? ? Hc _]; subst.
  destruct (entry_head c Hc) as (a & r & -> & Ha).
  destruct cs as [|y cs].
  - exists a, r. split; [reflexivity | exact Ha].
  - rewrite join_slash_cons2. simpl. eauto.
Qed.

Lemma split_join_slash (cs : list string) :
  cs <> [] -> Forall entry cs -> Py.split_slash (Py.join_slash cs) = cs.
Proof.
  induction cs as [|x cs IH]; [congruence|]. intros _ H.
  inversion H as [|? ? Hx Hcs]; subst.
  destruct (entry_inv x Hx) as (Hs & _).
  destruct cs as [|y cs].
  - simpl. now apply split_slash_noslash.
  - rewrite join_slash_cons2, split_slash_app, split_slash_noslash by assumption.
    rewrite IH by (assumption || discriminate). reflexivity.
Qed.

Lemma split_slashes_string (n : nat) (s : string) :
  Py.split_slash (Py.slashes_string n +:+ s) = repeat "" n ++ Py.split_slash s.
Proof. induction n as [|n IH]; simpl; [reflexivity | now rewrite IH]. Qed.

Lemma fold_norm_step_empties (n k : nat) (cs acc : list string) :
  fold_left (Py.norm_step n) (repeat "" k ++ cs) acc
  = fold_left (Py.norm_step n) cs acc.
Proof. induction k as [|k IH]; simpl; [reflexivity | exact IH]. Qed.

Lemma fold_norm_step_entries (n : nat) (cs acc : list string) :
  Forall entry cs -> fold_left (Py.norm_step n) cs acc = acc ++ cs.
Proof.
  revert acc; induction cs as [|c cs IH]; intros acc H; simpl.
  - now rewrite app_nil_r.
  - inversion H as [|? ? Hc Hcs]; subst.
    destruct (entry_inv c Hc) as (_ & E1 & E2 & E3).
    unfold Py.norm_step at 2. rewrite E1, E2, E3. simpl.
    rewrite IH by assumption. now rewrite <- app_assoc.
Qed.

Lemma fold_norm_step_nf (n m : nat) (cs : list string) :
  Forall entry cs ->
  fold_left (Py.norm_step m) (Py.split_slash (nf n cs)) [] = cs.
Proof.
  intros H. unfold nf. rewrite split_slashes_string, fold_norm_step_empties.
  destruct cs as [|c cs]; [reflexivity|].
  rewrite split_join_slash by (assumption || discriminate).
  now rewrite fold_norm_step_entries.
Qed.

Lemma initial_slashes_nf (n : nat) (cs : list string) :
  n = 1 \/ n = 2 -> Forall entry cs -> Py.initial_slashes (nf n cs) = n.
Proof.
  intros Hn H. unfold nf.
  destruct (join_slash_head cs H) as [-> | (a & r & -> & Ha)];
    destruct Hn as [-> | ->]; try reflexivity;
    unfold Py.initial_slashes;
    change (Py.slashes_string 1) with "/"; change (Py.slashes_string 2) with "//";
    change ("/" +:+ String a r) with (String "/" (String a r));
    change ("//" +:+ String a r) with (String "/" (String "/" (String a r)));
    rewrite !startswith_cons, ?Ascii.eqb_refl, (Ascii.eqb_sym "/" a), Ha;
    reflexivity.
Qed.

Lemma normpath_nf (n : nat) (cs : list string) :
  n = 1 \/ n = 2 -> Forall entry cs -> Py.normpath (nf n cs) = nf n cs.
Proof.
  intros Hn H. unfold Py.normpath.
  rewrite initial_slashes_nf, fold_norm_step_nf by assumption.
  fold (nf n cs).
  assert (E : String.eqb (nf n cs) "" = false)
    by (destruct Hn as [-> | ->]; reflexivity).
  now rewrite E.
Qed.

Lemma normal_abs_startswith (d : string) :
  normal_abs d -> Py.startswith d "/" = true.
Proof.
  intros (n & cs & [-> | ->] & _ & ->); reflexivity.
Qed.

Lemma normal_abs_abspath (cwd d : string) :
  normal_abs d -> Py.abspath cwd d = d.
Proof.
  intros H. unfold Py.abspath. rewrite (normal_abs_startswith d H).
  destruct H as (n & cs & Hn & Hcs & ->). now apply normpath_nf.
Qed.

(** [normpath] of an absolute path is in normal form. *)
Lemma Forall_removelast {A} (P : A -> Prop) (l : list A) :
  Forall P l -> Forall P (removelast l).
Proof.
  induction 1 as [|x l Hx Hl IH]; simpl; [constructor|].
  destruct l; [constructor | now constructor].
Qed.

Lemma last_entry (l : list string) :
  Forall entry l -> String.eqb (List.last l "") ".." = false.
Proof.
  induction 1 as [|x l Hx Hl IH]; [reflexivity|].
  destruct l as [|y l]; [|exact IH].
  simpl. now destruct (entry_inv x Hx) as (_ & _ & _ & ?).
Qed.

Lemma norm_step_entry (n : nat) (acc : list string) (c : string) :
  n <> 0 -> has_slash c = false -> Forall entry acc ->
  Forall entry (Py.norm_step n acc c).
Proof.
  intros Hn Hc Hacc. unfold Py.norm_step.
  destruct (String.eqb c "") eqn:E1; [exact Hacc|].
  destruct (String.eqb c ".") eqn:E2; [exact Hacc|]. simpl.
  destruct (String.eqb c "..") eqn:E3; simpl.
  - apply Nat.eqb_neq in Hn. rewrite Hn, (last_entry acc Hacc), andb_false_r.
    simpl. now apply Forall_removelast.
  - apply Forall_app. split; [exact Hacc|]. constructor; [|constructor].
    unfold entry, is_entry_name. now rewrite Hc, E1, E2, E3.
Qed.

Lemma fold_norm_step_entry (n : nat) (cs acc : list string) :
  n <> 0 -> Forall (fun c => has_slash c = false) cs -> Forall entry acc ->
  Forall entry (fold_left (Py.norm_step n) cs acc).
Proof.
  intros Hn Hcs. revert acc.
  induction Hcs as [|c cs Hc Hcs IH]; intros acc Hacc; simpl; [exact Hacc|].
  apply IH. now apply norm_step_entry.
Qed.

Lemma initial_slashes_abs (p : string) :
  Py.startswith p "/" = true ->
  Py.initial_slashes p = 1 \/ Py.initial_slashes p = 2.
Proof.
  intros H. unfold Py.initial_slashes. rewrite H.
  destruct (_ && _)%bool; auto.
Qed.

Lemma normpath_normal_abs (p : string) :
  Py.startswith p "/" = true -> normal_abs (Py.normpath p).
Proof.
  intros H. unfold Py.normpath.
  destruct (String.eqb p "") eqn:E.
  { apply String.eqb_eq in E. subst p. discriminate. }
  pose proof (initial_slashes_abs p H) as Hn.
  set (n := Py.initial_slashes p) in *.
  set (cs := fold_left (Py.norm_step n) (Py.split_slash p) []).
  assert (Hcs : Forall entry cs).
  { apply fold_norm_step_entry; [lia | apply split_slash_comps | constructor]. }
  assert (E' : String.eqb (Py.slashes_string n +:+ Py.join_slash cs) "" = false)
    by (destruct Hn as [-> | ->]; reflexivity).
  rewrite E'. now exists n, cs.
Qed.

Lemma startswith_append_l (a b p : string) :
  Py.startswith a p = true -> Py.startswith (a +:+ b) p = true.
Proof.
  intros H. apply startswith_spec in H as [r ->].
  rewrite append_assoc. apply startswith_append.
Qed.

Lemma abspath_normal_abs (cwd p : string) :
  Py.startswith cwd "/" = true -> normal_abs (Py.abspath cwd p).
Proof.
  intros Hcwd. unfold Py.abspath.
  destruct (Py.startswith p "/") eqn:E; [now apply normpath_normal_abs|].
  apply normpath_normal_abs. unfold Py.path_join. rewrite E.
  destruct (_ || _)%bool; now apply startswith_append_l.
Qed.

(** ** Entries of a directory *)

Lemma entry_not_abs (n : string) : entry n -> Py.startswith n "/" = false.
Proof.
  intros H. destruct (entry_head n H) as (a & r & -> & Ha).
  rewrite startswith_cons, Ascii.eqb_sym, Ha. reflexivity.
Qed.

Lemma path_join_entry (d n : string) :
  d <> "" -> entry n -> Py.path_join d n = dir_prefix d +:+ n.
Proof.
  intros Hd Hn. unfold Py.path_join, dir_prefix.
  rewrite (entry_not_abs n Hn).
  apply String.eqb_neq in Hd. rewrite Hd. simpl.
  destruct (Py.endswith_slash d); [reflexivity|].
  now rewrite append_assoc.
Qed.

Lemma normal_abs_nonempty (d : string) : normal_abs d -> d <> "".
Proof. intros (n & cs & [-> | ->] & _ & ->); discriminate. Qed.

Lemma endswith_slash_append (a b : string) :
  b <> "" -> Py.endswith_slash (a +:+ b) = Py.endswith_slash b.
Proof.
  intros Hb. induction a as [|c a IH]; [reflexivity|].
  change (String c a +:+ b) with (String c (a +:+ b)).
  destruct (a +:+ b) eqn:E.
  - destruct a; [simpl in E; congruence | discriminate].
  - simpl. exact IH.
Qed.

Lemma endswith_slash_noslash (s : string) :
  has_slash s = false -> Py.endswith_slash s = false.
Proof.
  induction s as [|c s IH]; [reflexivity|]. simpl.
  intros H. apply orb_false_iff in H as [Hc Hs].
  destruct s; [exact Hc | now apply IH].
Qed.

Lemma nf_snoc (n : nat) (cs : list string) (c : string) :
  n = 1 \/ n = 2 -> Forall entry cs -> entry c ->
  dir_prefix (nf n cs) +:+ c = nf n (cs ++ [c]).
Proof.
  intros Hn Hcs Hc. unfold dir_prefix.
  destruct (entry_inv c Hc) as (Hs & He & _).
  destruct (list_eq_nil_dec cs) as [-> | Hne].
  - destruct Hn as [-> | ->]; reflexivity.
  - assert (E : Py.endswith_slash (nf n cs) = false).
    { destruct (exists_last Hne) as (cs' & x & ->).
      apply Forall_app in Hcs as [_ Hx]. inversion Hx as [|? ? Hx' _]; subst.
      destruct (entry_inv x Hx') as (Hxs & Hxe & _).
      unfold nf. destruct cs' as [|y cs'].
      + change (Py.join_slash ([] ++ [x])) with x.
        rewrite endswith_slash_append;
          [now apply endswith_slash_noslash | intros ->; discriminate].
      + rewrite join_slash_snoc by discriminate.
        change (String "/" x) with ("/" +:+ x). rewrite <- !append_assoc.
        rewrite endswith_slash_append;
          [now apply endswith_slash_noslash | intros ->; discriminate]. }
    rewrite E. unfold nf. rewrite join_slash_snoc by assumption.
    rewrite !append_assoc. reflexivity.
Qed.

Lemma path_join_normal_abs (d n : string) :
  normal_abs d -> entry n ->
  normal_abs (Py.path_join d n) /\ Py.startswith (Py.path_join d n) d = true.
Proof.
  intros Hd Hn.
  rewrite path_join_entry by (auto using normal_abs_nonempty).
  split.
  - destruct Hd as (k & cs & Hk & Hcs & ->).
    rewrite nf_snoc by assumption.
    exists k, (cs ++ [n]). repeat split; [assumption|].
    apply Forall_app. split; [assumption | now repeat constructor].
  - unfold dir_prefix. destruct (Py.endswith_slash d).
    + apply startswith_append.
    + rewrite append_assoc. apply startswith_append.
Qed.

Lemma child_name_spec (d p n : string) :
  child_name d p = Some n <-> p = dir_prefix d +:+ n /\ entry n.
Proof.
  unfold child_name. fold (dir_prefix d).
  destruct (strip_prefix (dir_prefix d) p) as [r|] eqn:E.
  - apply strip_prefix_spec in E. subst p.
    destruct (is_entry_name r) eqn:Er.
    + split; [intros [= ->]; now split|].
      intros [H _]. now apply String.app_inj in H as ->.
    + split; [discriminate|]. intros [H Hn].
      apply String.app_inj in H as ->. unfold entry in Hn. congruence.
  - split; [discriminate|]. intros [-> _].
    pose proof (proj2 (strip_prefix_spec (dir_prefix d) _ n) eq_refl). congruence.
Qed.

Lemma dir_prefix_slash (d : string) : exists a, dir_prefix d = a +:+ "/".
Proof.
  unfold dir_prefix. destruct (Py.endswith_slash d) eqn:E; [|now exists d].
  induction d as [|c d IH]; [discriminate|].
  destruct d as [|c' d].
  - simpl in E. apply Ascii.eqb_eq in E as ->. now exists "".
  - destruct (IH E) as [a Ha]. exists (String c a).
    change (String c a +:+ "/") with (String c (a +:+ "/")). now rewrite <- Ha.
Qed.

Lemma basename_entry (d n : string) :
  entry n -> Py.basename (dir_prefix d +:+ n) = n.
Proof.
  intros Hn. destruct (dir_prefix_slash d) as [a ->].
  destruct (entry_inv n Hn) as (Hs & _).
  rewrite append_assoc. change ("/" +:+ n) with (String "/" n).
  unfold Py.basename. rewrite split_slash_app, (split_slash_noslash n Hs).
  apply last_last.
Qed.

End StringFacts.

(** * Reasoning about the monad *)

Section MonadFacts.

Lemma skeleton_app (t1 t2 : list Event) :
  skeleton (t1 ++ t2) = skeleton t1 ++ skeleton t2.
Proof. apply List.filter_app. Qed.

Lemma returns_quiet {A} (m : M A) : returns m -> quiet m.
Proof.
  intros H fs. destruct (H fs) as (a & t & E & Ht).
  exists (Ret a), t. repeat split; [exact E | discriminate | exact Ht].
Qed.

Lemma returns_ret {A} (a : A) : returns (ret a).
Proof. intros fs. now exists a, []. Qed.

Lemma quiet_raise {A} (e : Exn) : quiet (@raise A e).
Proof. intros fs. exists (Raise e), []. repeat split. discriminate. Qed.

Lemma returns_emit (e : Event) : outer e = false -> returns (emit e).
Proof. intros H fs. exists tt, [e]. split; [reflexivity|]. unfold skeleton. simpl. now rewrite H. Qed.

Lemma quiet_bind {A B} (m : M A) (k : A -> M B) :
  quiet m -> (forall a, quiet (k a)) -> quiet (bind m k).
Proof.
  intros Hm Hk fs. unfold bind.
  destruct (Hm fs) as (r & t & -> & Hr & Ht).
  destruct r as [a|e|c].
  - destruct (Hk a fs) as (r' & t' & -> & Hr' & Ht').
    exists r', (t ++ t'). rewrite skeleton_app, Ht, Ht'. auto.
  - exists (Raise e), t. repeat split; [discriminate | exact Ht].
  - now destruct (Hr c).
Qed.

Lemma returns_bind {A B} (m : M A) (k : A -> M B) :
  returns m -> (forall a, returns (k a)) -> returns (bind m k).
Proof.
  intros Hm Hk fs. unfold bind.
  destruct (Hm fs) as (a & t & -> & Ht).
  destruct (Hk a fs) as (b & t' & -> & Ht').
  exists b, (t ++ t'). rewrite skeleton_app, Ht, Ht'. auto.
Qed.

Lemma returns_try_except {A} (m : M A) (h : Exn -> M A) :
  quiet m -> (forall e, returns (h e)) -> returns (try_except m h).
Proof.
  intros Hm Hh fs. unfold try_except.
  destruct (Hm fs) as (r & t & -> & Hr & Ht).
  destruct r as [a|e|c].
  - now exists a, t.
  - destruct (Hh e fs) as (b & t' & -> & Ht').
    exists b, (t ++ t'). rewrite skeleton_app, Ht, Ht'. auto.
  - now destruct (Hr c).
Qed.

Lemma quiet_try_finally {A} (m : M A) (f : M unit) :
  quiet m -> returns f -> quiet (try_finally m f).
Proof.
  intros Hm Hf fs. unfold try_finally.
  destruct (Hm fs) as (r & t & -> & Hr & Ht).
  destruct (Hf fs) as ([] & t' & -> & Ht').
  exists r, (t ++ t'). rewrite skeleton_app, Ht, Ht'. auto.
Qed.

Lemma quiet_for_each {A} (l : list A) (body : A -> M unit) :
  (forall x, quiet (body x)) -> quiet (for_each l body).
Proof.
  intros H. induction l as [|x l IH]; simpl.
  - apply returns_quiet, returns_ret.
  - apply quiet_bind; auto.
Qed.

Lemma quiet_if {A} (b : bool) (m1 m2 : M A) :
  quiet m1 -> quiet m2 -> quiet (if b then m1 else m2).
Proof. now destruct b. Qed.

End MonadFacts.

Create HintDb quiet.
#[export] Hint Resolve returns_quiet returns_ret quiet_raise quiet_bind
  quiet_try_finally quiet_for_each quiet_if : quiet.
#[export] Hint Extern 1 (returns (emit _)) => (apply returns_emit; reflexivity) : quiet.
#[export] Hint Extern 1 (returns (logger_info _ _)) => (apply returns_emit; reflexivity) : quiet.
#[export] Hint Extern 1 (returns (logger_warning _ _)) => (apply returns_emit; reflexivity) : quiet.
#[export] Hint Extern 1 (returns (logger_error _ _)) => (apply returns_emit; reflexivity) : quiet.
#[export] Hint Extern 1 (returns (logger_critical _ _)) => (apply returns_emit; reflexivity) : quiet.

Section ProgramFacts.

Variable env : Env.

Lemma quiet_getitem d k : quiet (getitem d k).
Proof.
  destruct d; simpl; auto with quiet.
  destruct (dict_lookup k items); auto with quiet.
Qed.

Lemma quiet_as_str y : quiet (as_str y).
Proof. destruct y; simpl; auto with quiet. Qed.

Lemma quiet_iter_items y : quiet (iter_items y).
Proof. destruct y; simpl; auto with quiet. Qed.

Lemma quiet_open_safe_load p : quiet (open_safe_load env p).
Proof.
  intros fs. unfold open_safe_load.
  destruct (fs !! resolve env p) as [[|[y|]]|]; eexists _, []; repeat split; discriminate.
Qed.

Lemma quiet_call c : quiet (call env c).
Proof.
  unfold call. apply quiet_bind; [auto with quiet|]. intros _.
  destruct (call_fails env c); auto with quiet.
Qed.

Hint Resolve quiet_getitem quiet_as_str quiet_iter_items quiet_open_safe_load
  quiet_call : quiet.

Lemma quiet_get_request_content self path :
  quiet (_get_request_content env self path).
Proof.
  unfold _get_request_content, lock_lock, lock_unlock.
  apply quiet_bind; [destruct (lock_times_out env path); auto with quiet|].
  intros _. auto with quiet.
Qed.

Lemma quiet_validate_request request : quiet (_validate_request request).
Proof.
  unfold _validate_request.
  repeat (first [ apply quiet_if | apply quiet_bind; [|intros ?] ]; auto with quiet).
Qed.

Lemma quiet_matching_entries repo contest tasks :
  quiet (matching_entries repo contest tasks).
Proof. induction tasks as [|t ts IH]; simpl; auto 10 with quiet. Qed.

Lemma quiet_task_contests_loop repo cs : quiet (task_contests_loop env repo cs).
Proof.
  induction cs as [|c cs IH]; simpl; auto with quiet.
  repeat (apply quiet_bind; [|intros ?]); auto using quiet_matching_entries with quiet.
Qed.

Lemma quiet_update_safely self repo repo_type :
  quiet (_update_safely env self repo repo_type).
Proof.
  unfold _update_safely, _get_task_contests.
  repeat apply quiet_if; auto 12 with quiet.
  apply quiet_bind; [auto with quiet|]. intros _.
  apply quiet_bind; [apply quiet_task_contests_loop|]. intros [|c l]; auto 12 with quiet.
Qed.

Lemma quiet_with_SafeUpdater {A} repo (body : M A) :
  quiet body -> quiet (with_SafeUpdater env repo body).
Proof.
  intros H. unfold with_SafeUpdater. apply quiet_bind.
  - destruct (scope_fails env repo); auto with quiet.
  - intros _. auto with quiet.
Qed.

End ProgramFacts.

Lemma is_normal_abs_spec (d : string) : is_normal_abs d = true <-> normal_abs d.
Proof.
  unfold is_normal_abs. split.
  - intros H. apply andb_prop in H as [Ha Hn]. apply String.eqb_eq in Hn.
    rewrite <- Hn. now apply normpath_normal_abs.
  - intros H. rewrite (normal_abs_startswith d H). simpl.
    apply String.eqb_eq. destruct H as (n & cs & Hn & Hcs & ->).
    now apply normpath_nf.
Qed.

Section HandlerFacts.

Variable env : Env.
Variable self : RequestHandler.

Hint Resolve quiet_getitem quiet_as_str quiet_iter_items quiet_open_safe_load
  quiet_call quiet_get_request_content quiet_validate_request
  quiet_update_safely quiet_with_SafeUpdater : quiet.

Lemma validate_valid (request : Yaml) (fs : FS) :
  valid_request request -> _validate_request request fs = (Ret tt, fs, []).
Proof.
  intros (items & user & repo & -> & Hu & Hr & Ht).
  unfold _validate_request, has_key, getitem, bind, ret. simpl.
  rewrite Hu, Hr. simpl. now rewrite bool_decide_true.
Qed.

Lemma validate_ret (request : Yaml) (fs fs' : FS) (t : list Event) :
  _validate_request request fs = (Ret tt, fs', t) -> valid_request request.
Proof.
  unfold _validate_request, has_key, getitem, bind, ret, raise.
  destruct request as [| | | |?|items]; simpl; try discriminate.
  destruct (dict_lookup "user" items) as [user|] eqn:Hu; simpl; [|discriminate].
  destruct user as [| | |user| |]; simpl; try discriminate.
  destruct (dict_lookup "repo" items) as [repo|] eqn:Hr; simpl; [|discriminate].
  destruct repo as [| | |repo| |]; simpl; try discriminate.
  case_bool_decide as Ht; simpl; [|discriminate].
  intros _. now exists items, user, repo.
Qed.

Lemma bind_ret_l {A B} (a : A) (k : A -> M B) (fs : FS) :
  bind (ret a) k fs = k a fs.
Proof. unfold bind, ret. now destruct (k a fs) as [[r fs'] t]. Qed.

Lemma act_valid (items : list (Yaml * Yaml)) (repo : string) (fs : FS) :
  dict_lookup "repo" items = Some (YStr repo) ->
  _act env self (YDict items) fs =
  try_except
    (with_SafeUpdater env repo
       (_update_safely env self repo (Py.first_segment repo)))
    (fun e => logger_error "Error while acting on %s\n%s" [AStr repo; ATrace e])
    fs.
Proof.
  intros Hr. unfold _act, getitem. rewrite Hr, bind_ret_l.
  unfold as_str. now rewrite bind_ret_l.
Qed.

Lemma returns_act (request : Yaml) :
  valid_request request -> returns (_act env self request).
Proof.
  intros (items & user & repo & -> & Hu & Hr & Ht) fs.
  rewrite (act_valid items repo fs Hr).
  apply returns_try_except; auto with quiet.
Qed.

(** [handle_request] always comes back with a verdict, whatever the
    file holds, and touches nothing in the file system. *)
Lemma handle_request_returns (path : string) (fs : FS) :
  exists b t,
    handle_request env self path fs = (Ret b, fs, EvHandle path :: t)
    /\ skeleton t = [].
Proof.
  assert (H : returns
    (logger_info "Starting to handle %s" [AStr (Py.basename path)] ;;
     r <- try_except
            (request <- _get_request_content env self path ;; ret (Some request))
            (fun e =>
               logger_error "Error while opening %s\n%s" [AStr path; ATrace e] ;;
               ret None) ;;
     match r with
     | None => ret false
     | Some request =>
         v <- try_except
                (_validate_request request ;; ret true)
                (fun e =>
                   logger_error "Error while validating %s\n%s"
                                [AStr path; ATrace e] ;;
                   ret false) ;;
         if v then _act env self request ;; ret true else ret false
     end)).
  { apply returns_bind; [auto with quiet | intros _].
    apply returns_bind.
    { apply returns_try_except; [auto with quiet|].
      intros e. apply returns_bind; auto with quiet. }
    intros [request|]; [|apply returns_ret].
    intros fs0. unfold bind at 1, try_except, bind at 1.
    destruct (quiet_validate_request request fs0) as (r & t & E & Hr & Ht).
    rewrite E. destruct r as [[]|e|c]; [| |now destruct (Hr c)].
    - apply validate_ret in E as Hv. simpl.
      destruct (returns_bind _ (fun _ => ret true) (returns_act request Hv)
                  (fun _ => returns_ret true) fs0) as (b & t' & -> & Ht').
      exists b, ((t ++ []) ++ t'). now rewrite !skeleton_app, Ht, Ht'.
    - simpl. exists false, ((t ++ [EvLog ERROR "Error while validating %s\n%s"
                                   [AStr path; ATrace e]]) ++ []).
      split; [reflexivity|]. now rewrite !skeleton_app, Ht. }
  destruct (H fs) as (b & t & E & Ht). exists b, t. split; [|exact Ht].
  unfold handle_request. unfold bind at 1. simpl. now rewrite E.
Qed.

(** [_delete_request] on a path that is its own absolute form. *)
Lemma delete_request_resolved (p : string) (fs : FS) :
  resolve env p = p ->
  _delete_request env self p fs =
    if negb (is_file fs p) then
      (Ret tt, fs,
       [EvLog ERROR "Deleting request %s failed, it is not a file." [AStr p]])
    else if negb (Py.startswith p (dir self)) then
      (Exit 1, fs, [EvLog CRITICAL "Won't delete: %s" [AStr p]])
    else if remove_fails env p then
      (Ret tt, fs,
       [EvLog ERROR "Deleting request %s failed:\n%s" [AStr p; ATrace OSError]])
    else (Ret tt, delete p fs, [EvRemove p]).
Proof.
  intros Hp. unfold _delete_request, os_path_isfile, os_remove, try_except, bind.
  rewrite !Hp. destruct (is_file fs p) eqn:Ef; simpl; [|reflexivity].
  destruct (Py.startswith p (dir self)); simpl; [|reflexivity].
  rewrite Ef. destruct (remove_fails env p); reflexivity.
Qed.

Lemma resolve_idem (p : string) :
  Py.startswith (cwd env) "/" = true -> resolve env (resolve env p) = resolve env p.
Proof.
  intros H. unfold resolve at 1. apply normal_abs_abspath.
  now apply abspath_normal_abs.
Qed.

Lemma delete_request_resolve (path : string) (fs : FS) :
  Py.startswith (cwd env) "/" = true ->
  _delete_request env self path fs
  = _delete_request env self (resolve env path) fs.
Proof.
  intros H. unfold _delete_request. now rewrite !resolve_idem.
Qed.

End HandlerFacts.

Section DrainFacts.

Variable env : Env.
Variable self : RequestHandler.
Hypothesis Hdir : normal_abs (dir self).

Lemma map_omap_filter {A B} (f : B -> A) (g : A -> option B) (l : list A) :
  (forall x y, g x = Some y -> f y = x) ->
  map f (omap g l)
  = List.filter (fun x => match g x with Some _ => true | None => false end) l.
Proof.
  intros H. induction l as [|x l IH]; [reflexivity|]. simpl.
  destruct (g x) as [y|] eqn:E; simpl; [|exact IH].
  f_equal; [now apply H | exact IH].
Qed.

Lemma entries_as_paths (fs : FS) :
  map (Py.path_join (dir self)) (dir_entries fs (dir self))
  = List.filter (is_child (dir self)) (map fst (map_to_list fs)).
Proof.
  unfold dir_entries. apply map_omap_filter. intros p n E.
  apply child_name_spec in E as [-> Hn].
  apply path_join_entry; [now apply normal_abs_nonempty | exact Hn].
Qed.

Lemma child_facts (p : string) :
  is_child (dir self) p = true ->
  normal_abs p /\ Py.startswith p (dir self) = true /\ resolve env p = p
  /\ exists n, entry n /\ p = Py.path_join (dir self) n
               /\ p = dir_prefix (dir self) +:+ n.
Proof.
  unfold is_child. destruct (child_name (dir self) p) as [n|] eqn:E; [|discriminate].
  intros _. apply child_name_spec in E as [E Hn].
  assert (Ep : p = Py.path_join (dir self) n).
  { rewrite path_join_entry; auto using normal_abs_nonempty. }
  destruct (path_join_normal_abs (dir self) n Hdir Hn) as [H1 H2].
  rewrite <- Ep in H1, H2. repeat split; try assumption.
  - now apply normal_abs_abspath.
  - now exists n.
Qed.

Lemma request_files_elem (fs : FS) (p : string) :
  p ∈ request_files self fs <->
  is_file fs p = true /\ is_child (dir self) p = true.
Proof.
  unfold request_files, py_sort. rewrite merge_sort_Permutation.
  rewrite entries_as_paths, list_elem_of_In, !filter_In.
  split; [tauto|]. intros [Hf Hc]. repeat split; try assumption.
  unfold is_file in Hf. destruct (fs !! p) as [node|] eqn:E; [|discriminate].
  apply list_elem_of_In. change (p ∈ (map_to_list fs).*1).
  apply list_elem_of_fmap. exists (p, node). split; [reflexivity|].
  now apply elem_of_map_to_list.
Qed.

Lemma request_files_NoDup (fs : FS) : NoDup (request_files self fs).
Proof.
  unfold request_files, py_sort. rewrite merge_sort_Permutation.
  rewrite entries_as_paths. apply NoDup_ListNoDup.
  do 2 apply List.NoDup_filter. apply NoDup_ListNoDup.
  apply (NoDup_fst_map_to_list fs).
Qed.

Lemma request_files_Sorted (fs : FS) : Sorted String.le (request_files self fs).
Proof. apply Sorted_merge_sort, _. Qed.

Lemma request_files_names_Sorted (fs : FS) :
  Sorted String.le (map Py.basename (request_files self fs)).
Proof.
  assert (H : Forall (fun p => is_child (dir self) p = true) (request_files self fs)).
  { apply Forall_forall. intros p Hp. now apply request_files_elem in Hp as [_ ?]. }
  pose proof (request_files_Sorted fs) as HS.
  induction HS as [|p l HS IH Hhd]; [constructor|].
  inversion H as [|? ? Hp Hl]; subst. simpl. constructor; [now apply IH|].
  destruct Hhd as [|q l' Hpq]; [constructor|]. simpl. constructor.
  inversion Hl as [|? ? Hq _]; subst.
  destruct (child_facts p Hp) as (_ & _ & _ & n & Hn & _ & ->).
  destruct (child_facts q Hq) as (_ & _ & _ & m & Hm & _ & ->).
  rewrite !basename_entry by assumption. now apply le_append in Hpq.
Qed.

Lemma filterM_isfile (l : list string) (fs : FS) :
  filterM (os_path_isfile env) l fs
  = (Ret (List.filter (fun p => is_file fs (resolve env p)) l), fs, []).
Proof.
  induction l as [|p l IH]; [reflexivity|].
  simpl. unfold bind at 1. unfold os_path_isfile at 1.
  unfold bind at 1. rewrite IH. reflexivity.
Qed.

Lemma list_requests_spec (fs : FS) :
  is_dir fs (dir self) = true ->
  list_requests env self fs = (Ret (request_files self fs), fs, []).
Proof.
  intros Hd. unfold list_requests, os_listdir, bind at 1.
  assert (E : resolve env (dir self) = dir self) by now apply normal_abs_abspath.
  rewrite E, Hd. unfold bind at 1. rewrite filterM_isfile. simpl.
  unfold request_files. rewrite entries_as_paths.
  rewrite (filter_ext_in (fun p => is_file fs (resolve env p)) (is_file fs));
    [reflexivity|].
  intros p Hp. apply filter_In in Hp as [_ Hp].
  now destruct (child_facts p Hp) as (_ & _ & -> & _).
Qed.

Lemma handle_one_spec (total index : nat) (p : string) (fs : FS) :
  resolve env p = p -> Py.startswith p (dir self) = true ->
  is_file fs p = true ->
  exists t,
    handle_one env self total (index, p) fs
    = (Ret tt, (if remove_fails env p then fs else delete p fs), t)
    /\ skeleton t = drain_events env p.
Proof.
  intros Hp Hs Hf. unfold handle_one.
  destruct (handle_request_returns env self p fs) as (b & t1 & E1 & Ht1).
  unfold bind at 1. rewrite E1.
  set (lg := if negb b then logger_error "Failed to handle %s" [AStr (Py.basename p)]
             else ret tt).
  assert (Hlg : exists t2, lg fs = (Ret tt, fs, t2) /\ skeleton t2 = []).
  { unfold lg. destruct b; simpl; eexists; split; reflexivity. }
  destruct Hlg as (t2 & E2 & Ht2).
  unfold bind at 1. rewrite E2.
  unfold bind at 1. rewrite (delete_request_resolved env self p fs Hp), Hf, Hs. simpl.
  unfold drain_events.
  destruct (remove_fails env p); simpl; eexists; (split; [reflexivity|]);
    unfold skeleton in *; simpl; rewrite !List.filter_app, Ht1, Ht2; reflexivity.
Qed.

Lemma drain_loop (total : nat) (l : list string) :
  forall (k : nat) (fs : FS),
    NoDup l ->
    (forall p, p ∈ l ->
       resolve env p = p /\ Py.startswith p (dir self) = true
       /\ is_file fs p = true) ->
    exists t,
      for_each (combine (seq k (length l)) l) (handle_one env self total) fs
      = (Ret tt, after_removals env fs l, t)
      /\ skeleton t = flat_map (drain_events env) l.
Proof.
  induction l as [|p l IH]; intros k fs Hnd Hl.
  - exists []. split; reflexivity.
  - apply NoDup_cons in Hnd as [Hp Hnd].
    destruct (Hl p) as (H1 & H2 & H3); [left|].
    destruct (handle_one_spec total k p fs H1 H2 H3) as (t1 & E1 & Ht1).
    set (fs1 := if remove_fails env p then fs else delete p fs) in *.
    destruct (IH (S k) fs1 Hnd) as (t2 & E2 & Ht2).
    { intros q Hq. destruct (Hl q) as (Q1 & Q2 & Q3); [now right|].
      repeat split; try assumption. unfold fs1.
      destruct (remove_fails env p); [assumption|].
      unfold is_file in *. rewrite lookup_delete_ne; [assumption|].
      intros ->. contradiction. }
    exists (t1 ++ t2).
    change (for_each (combine (seq k (length (p :: l))) (p :: l))
              (handle_one env self total) fs)
      with (bind (handle_one env self total (k, p))
              (fun _ => for_each (combine (seq (S k) (length l)) l)
                          (handle_one env self total)) fs).
    unfold bind at 1. rewrite E1, E2. split; [reflexivity|].
    now rewrite skeleton_app, Ht1, Ht2.
Qed.

Lemma after_removals_lookup (fs : FS) (l : list string) (q : string) :
  after_removals env fs l !! q
  = if (bool_decide (q ∈ l) && negb (remove_fails env q))%bool then None
    else fs !! q.
Proof.
  unfold after_removals. revert fs. induction l as [|p l IH]; intros fs; simpl.
  - reflexivity.
  - rewrite IH. destruct (decide (q = p)) as [->|Hne].
    + rewrite (bool_decide_true (p ∈ p :: l)) by left.
      destruct (remove_fails env p); simpl.
      * now rewrite andb_false_r.
      * rewrite andb_true_r, lookup_delete_eq. now destruct (bool_decide _).
    + assert (E : bool_decide (q ∈ p :: l) = bool_decide (q ∈ l)).
      { apply bool_decide_ext. rewrite elem_of_cons. tauto. }
      rewrite E. destruct (_ && _)%bool; [reflexivity|].
      destruct (remove_fails env p); [reflexivity|]. now apply lookup_delete_ne.
Qed.

(** The drain: it returns, it enters every listed request once and in
    order, it removes every file whose removal is not refused, and it
    sleeps after every request. *)
Lemma drain_spec (fs : FS) :
  is_dir fs (dir self) = true ->
  exists t,
    handle_existing_requests env self fs
    = (Ret tt, after_removals env fs (request_files self fs), t)
    /\ skeleton t = flat_map (drain_events env) (request_files self fs).
Proof.
  intros Hd. unfold handle_existing_requests.
  destruct (drain_loop (length (request_files self fs)) (request_files self fs) 0 fs)
    as (t & E & Ht).
  { apply request_files_NoDup. }
  { intros p Hp. apply request_files_elem in Hp as [Hf Hc].
    destruct (child_facts p Hc) as (_ & Hs & Hr & _). auto. }
  unfold bind at 1. simpl. unfold bind at 1. rewrite (list_requests_spec fs Hd).
  unfold bind at 1. simpl. unfold enumerate. rewrite E.
  eexists. split; [reflexivity|]. simpl. exact Ht.
Qed.

End DrainFacts.

Section DispatchFacts.

Variable env : Env.
Variable self : RequestHandler.

Lemma calls_of_app (t1 t2 : list Event) :
  calls_of (t1 ++ t2) = calls_of t1 ++ calls_of t2.
Proof. apply omap_app. Qed.

Lemma attempted_no_failure (plan : list Call) :
  (forall c, call_fails env c = false) -> attempted env plan = plan.
Proof.
  intros H. induction plan as [|c plan IH]; [reflexivity|].
  simpl. now rewrite H, IH.
Qed.

Lemma for_each_cons {A} (x : A) (l : list A) (body : A -> M unit) (fs : FS) :
  for_each (x :: l) body fs = bind (body x) (fun _ => for_each l body) fs.
Proof. reflexivity. Qed.

Lemma trace_of_bind_Ret {A B} (m : M A) (k : A -> M B) (fs fs1 : FS) (a : A)
    (t1 : list Event) :
  m fs = (Ret a, fs1, t1) ->
  trace_of (bind m k fs) = t1 ++ trace_of (k a fs1).
Proof. intros E. unfold bind. rewrite E. now destruct (k a fs1) as [[r f] t]. Qed.

Lemma trace_of_bind_Raise {A B} (m : M A) (k : A -> M B) (fs fs1 : FS) (e : Exn)
    (t1 : list Event) :
  m fs = (Raise e, fs1, t1) -> trace_of (bind m k fs) = t1.
Proof. intros E. unfold bind. now rewrite E. Qed.

Lemma call_spec (c : Call) (fs : FS) :
  call env c fs
  = if call_fails env c then (Raise (ServiceError c), fs, [EvCall c])
    else (Ret tt, fs, [EvCall c]).
Proof. unfold call, bind, emit. now destruct (call_fails env c). Qed.

(** The loops over contests of [_update_safely]. *)
Lemma contest_body (m1 m2 c : string) (fs : FS) :
  (logger_info m1 [AStr c] ;;
   call env (contest_call c) ;;
   logger_info m2 [AStr c]) fs
  = if call_fails env (contest_call c)
    then (Raise (ServiceError (contest_call c)), fs,
          [EvLog INFO m1 [AStr c]; EvCall (contest_call c)])
    else (Ret tt, fs,
          [EvLog INFO m1 [AStr c]; EvCall (contest_call c);
           EvLog INFO m2 [AStr c]]).
Proof.
  unfold bind, logger_info, emit, call, bind, emit.
  now destruct (call_fails env (contest_call c)).
Qed.

Lemma contest_loop_calls (m1 m2 : string) (l : list string) (fs : FS) :
  exists r t,
    for_each l (fun contest =>
      logger_info m1 [AStr contest] ;;
      call env (contest_call contest) ;;
      logger_info m2 [AStr contest]) fs = (r, fs, t)
    /\ calls_of t = attempted env (map contest_call l)
    /\ (r = Ret tt \/ exists e, r = Raise e).
Proof.
  induction l as [|c l IH].
  - exists (Ret tt), []. repeat split; auto.
  - destruct IH as (r & t & E & Hc & Hr).
    rewrite for_each_cons. unfold bind at 1. rewrite contest_body.
    simpl attempted.
    destruct (call_fails env (contest_call c)) eqn:Ef.
    + eexists _, _. split; [reflexivity|]. split; [reflexivity | eauto].
    + rewrite E. eexists _, _. split; [reflexivity|]. simpl. rewrite Hc.
      split; [reflexivity | assumption].
Qed.

Lemma update_safely_users (repo : string) (fs : FS) :
  calls_of (trace_of (_update_safely env self repo "users" fs))
  = attempted env (update_users :: map contest_call (elements (contests self))).
Proof.
  unfold _update_safely. eval_eqb.
  destruct (contest_loop_calls "Updating contest %s..." "Updated contest %s"
              (elements (contests self)) fs) as (r & t & E & Hc & Hr).
  erewrite trace_of_bind_Ret by reflexivity.
  pose proof (call_spec update_users fs) as Ecall. simpl attempted.
  destruct (call_fails env update_users).
  - erewrite trace_of_bind_Raise by exact Ecall. reflexivity.
  - erewrite trace_of_bind_Ret by exact Ecall.
    erewrite trace_of_bind_Ret by reflexivity.
    erewrite trace_of_bind_Ret by reflexivity.
    destruct Hr as [-> | [e ->]].
    + erewrite trace_of_bind_Ret by exact E.
      rewrite !calls_of_app, Hc. simpl. now rewrite app_nil_r.
    + erewrite trace_of_bind_Raise by exact E.
      rewrite !calls_of_app, Hc. reflexivity.
Qed.

Lemma update_safely_contests (repo : string) (fs : FS) :
  calls_of (trace_of (_update_safely env self repo "contests" fs))
  = if bool_decide (repo ∈ contests self)
    then [update_contest repo true true true] else [].
Proof.
  unfold _update_safely. eval_eqb.
  case_bool_decide; [|reflexivity].
  unfold bind, logger_info, emit, call, bind, emit. simpl.
  now destruct (call_fails env _).
Qed.

(** The resolver, when every manifest reads well. *)
Lemma matching_entries_spec (repo contest : string) (tasks : list Yaml)
    (ps : list Yaml) (fs : FS) :
  entry_paths tasks = Some ps ->
  matching_entries repo contest tasks fs
  = (Ret (repeat contest (occurrences repo ps)), fs, []).
Proof.
  revert ps. induction tasks as [|task tasks IH]; intros ps H; simpl in *.
  - injection H as <-. reflexivity.
  - destruct (entry_path task) as [p|] eqn:Ep; [|discriminate].
    destruct (entry_paths tasks) as [ps'|]; [|discriminate].
    injection H as <-. unfold bind at 1.
    destruct task as [| | | | |items]; try discriminate. simpl in Ep.
    unfold getitem. rewrite Ep. unfold ret at 1. unfold bind at 1.
    rewrite (IH ps' eq_refl). unfold occurrences. simpl.
    now destruct (yaml_eq_str p repo).
Qed.

Lemma task_contests_loop_spec (repo : string) (cs : list string) (fs : FS) :
  Forall (fun c => is_Some (manifest_paths env fs c)) cs ->
  task_contests_loop env repo cs fs
  = (Ret (flat_map (fun c => repeat c (listed_times env fs repo c)) cs), fs, []).
Proof.
  induction 1 as [|c cs [ps Hc] Hcs IH]; [reflexivity|].
  simpl. unfold listed_times at 1. rewrite Hc.
  unfold manifest_paths in Hc. unfold bind at 1, open_safe_load.
  destruct (fs !! _) as [[|[[| | | | |items]|]]|]; try discriminate.
  unfold bind at 1, getitem.
  destruct (dict_lookup "tasks" items) as [tasks|]; [|discriminate].
  unfold ret at 1. unfold bind at 1.
  destruct tasks as [| | |s|tasks|kvs]; try discriminate; simpl iter_items;
    unfold ret at 1; unfold bind at 1;
    rewrite (matching_entries_spec repo c _ ps fs Hc);
    unfold bind at 1; rewrite IH; reflexivity.
Qed.

Lemma update_safely_tasks (repo : string) (fs : FS) :
  Forall (fun c => is_Some (manifest_paths env fs c)) (elements (contests self)) ->
  let tc := flat_map (fun c => repeat c (listed_times env fs repo c))
                     (elements (contests self)) in
  calls_of (trace_of (_update_safely env self repo "tasks" fs))
  = match tc with
    | [] => []
    | _ => attempted env (generate_task repo true true :: map contest_call tc)
    end.
Proof.
  intros Hm tc. unfold _update_safely. eval_eqb.
  erewrite trace_of_bind_Ret by reflexivity.
  erewrite trace_of_bind_Ret
    by (unfold _get_task_contests; apply task_contests_loop_spec; exact Hm).
  fold tc. destruct tc as [|c tc]; [reflexivity|].
  destruct (contest_loop_calls "Updating contest %s..." "Finished updating contest %s"
              (c :: tc) fs) as (r & t & E & Hc & Hr).
  erewrite trace_of_bind_Ret by reflexivity.
  pose proof (call_spec (generate_task repo true true) fs) as Ecall.
  simpl attempted.
  destruct (call_fails env (generate_task repo true true)).
  - erewrite trace_of_bind_Raise by exact Ecall. reflexivity.
  - erewrite trace_of_bind_Ret by exact Ecall.
    erewrite trace_of_bind_Ret by reflexivity.
    erewrite trace_of_bind_Ret by reflexivity.
    destruct Hr as [-> | [e ->]].
    + erewrite trace_of_bind_Ret by exact E.
      rewrite !calls_of_app, Hc. simpl. now rewrite app_nil_r.
    + erewrite trace_of_bind_Raise by exact E.
      rewrite !calls_of_app, Hc. reflexivity.
Qed.

Lemma flat_map_repeat_filter (n : string -> nat) (cs : list string) :
  Forall (fun c => n c <= 1) cs ->
  flat_map (fun c => repeat c (n c)) cs
  = List.filter (fun c => negb (Nat.eqb (n c) 0)) cs.
Proof.
  induction 1 as [|c cs Hc Hcs IH]; [reflexivity|]. simpl. rewrite IH.
  destruct (n c) as [|[|k]]; simpl; [reflexivity | reflexivity | lia].
Qed.

(** The watch: with the mask [IN_CREATE] no event reaches
    [process_IN_CLOSE_WRITE]. *)
Lemma notifier_step_in_create (s : Step) (fs : FS) :
  notifier_step env self (dir self) IN_CREATE s fs
  = (Ret tt, outside_steps [s] fs, []).
Proof.
  destruct s as [p node|p|ev]; try reflexivity. simpl.
  destruct (String.eqb (ev_path ev) (dir self)); simpl; [|reflexivity].
  unfold process_event.
  destruct (Z.eqb_spec (ev_mask ev) IN_CLOSE_WRITE) as [->|Hne]; [reflexivity|].
  now destruct (negb _).
Qed.

Lemma watch_loop_in_create (steps : list Step) (fs : FS) :
  for_each steps (notifier_step env self (dir self) IN_CREATE) fs
  = (Ret tt, outside_steps steps fs, []).
Proof.
  revert fs. induction steps as [|s steps IH]; intros fs; [reflexivity|].
  simpl. unfold bind. rewrite notifier_step_in_create. simpl. now rewrite IH.
Qed.

Lemma watch_forever_spec (steps : list Step) (fs : FS) :
  watch_forever env self steps fs
  = (Ret tt, outside_steps steps fs,
     [EvLog INFO "Watching directory forever..." []]).
Proof.
  unfold watch_forever, bind, logger_info, emit.
  now rewrite watch_loop_in_create.
Qed.

End DispatchFacts.

Lemma main_spec (env : Env) (steps : list Step) (fs : FS) :
  main env steps fs =
    if is_dir fs (resolve env (REQUESTS_DIR env)) then
      (Ret 0%Z, outside_steps steps fs,
       [EvLog INFO "Initializing RequestHandler for directory %s"
              [AStr (REQUESTS_DIR env)];
        EvLog INFO "Watching directory forever..." []])
    else
      (Raise (Exception "Directory not found: %s"), fs,
       [EvLog INFO "Initializing RequestHandler for directory %s"
              [AStr (REQUESTS_DIR env)]]).
Proof.
  unfold main, my_init. unfold bind at 1. unfold bind at 1, logger_info, emit.
  unfold bind at 1, os_path_isdir.
  destruct (is_dir fs (resolve env (REQUESTS_DIR env))); simpl; [|reflexivity].
  unfold bind at 1. rewrite watch_forever_spec. reflexivity.
Qed.

Section TraceFacts.

Lemma handled_of_skeleton (t : list Event) :
  handled_of (skeleton t) = handled_of t.
Proof. induction t as [|[] t IH]; simpl; congruence. Qed.

Lemma removed_of_skeleton (t : list Event) :
  removed_of (skeleton t) = removed_of t.
Proof. induction t as [|[] t IH]; simpl; congruence. Qed.

Lemma sleeps_of_skeleton (t : list Event) :
  sleeps_of (skeleton t) = sleeps_of t.
Proof. induction t as [|[] t IH]; simpl; congruence. Qed.

Lemma pace_skeleton (t : list Event) : pace (skeleton t) = pace t.
Proof. induction t as [|[] t IH]; simpl; congruence. Qed.

Variable env : Env.

Lemma handled_of_drain (l : list string) :
  handled_of (flat_map (drain_events env) l) = l.
Proof.
  induction l as [|p l IH]; [reflexivity|]. simpl.
  unfold handled_of in *. rewrite !omap_app, IH.
  now destruct (remove_fails env p).
Qed.

Lemma removed_of_drain (l : list string) :
  removed_of (flat_map (drain_events env) l)
  = List.filter (fun p => negb (remove_fails env p)) l.
Proof.
  induction l as [|p l IH]; [reflexivity|]. simpl.
  unfold removed_of in *. rewrite !omap_app, IH.
  now destruct (remove_fails env p).
Qed.

Lemma sleeps_of_drain (l : list string) :
  sleeps_of (flat_map (drain_events env) l)
  = repeat (REQUEST_COOLING env) (length l).
Proof.
  induction l as [|p l IH]; [reflexivity|]. simpl.
  unfold sleeps_of in *. rewrite !omap_app, IH.
  now destruct (remove_fails env p).
Qed.

Lemma pace_drain (l : list string) :
  pace (flat_map (drain_events env) l)
  = flat_map (fun p => [EvHandle p; EvSleep (REQUEST_COOLING env)]) l.
Proof.
  induction l as [|p l IH]; [reflexivity|]. simpl.
  unfold pace in *. rewrite !List.filter_app, IH.
  now destruct (remove_fails env p).
Qed.

End TraceFacts.

(** * The drain *)

(** The outcome of a drain, in full. *)
Lemma drain_summary (env : Env) (self : RequestHandler) (fs : FS) :
  is_normal_abs (dir self) = true ->
  is_dir fs (dir self) = true ->
  let l := request_files self fs in
  let run := handle_existing_requests env self fs in
  list_requests env self fs = (Ret l, fs, [])
  /\ result_of run = Ret tt
  /\ handled_of (trace_of run) = l
  /\ NoDup l
  /\ removed_of (trace_of run) = List.filter (fun p => negb (remove_fails env p)) l
  /\ forall p, p ∈ l ->
       fs_of run !! p = if remove_fails env p then fs !! p else None.
Proof.
  intros Hn Hd l run. apply is_normal_abs_spec in Hn.
  destruct (drain_spec env self Hn fs Hd) as (t & E & Ht).
  subst run. rewrite E. unfold result_of, trace_of, fs_of. simpl.
  split; [now apply list_requests_spec|]. split; [reflexivity|].
  split; [now rewrite <- handled_of_skeleton, Ht, handled_of_drain|].
  split; [now apply request_files_NoDup|].
  split; [now rewrite <- removed_of_skeleton, Ht, removed_of_drain|].
  intros p Hp. rewrite after_removals_lookup.
  rewrite (bool_decide_true _ Hp). now destruct (remove_fails env p).
Qed.




(** C5 (amended).  The enumeration of a drain is exactly the regular
    files among the entries of the requests directory, subdirectories
    left out and a lock file that is present kept, without repetition,
    sorted by full path, which is the order of the names; the requests
    are handled in that order. *)
Theorem enumeration_is_sorted_regular_files
    (env : Env) (self : RequestHandler) (fs : FS) :
  is_normal_abs (dir self) = true ->
  is_dir fs (dir self) = true ->
  exists l,
    list_requests env self fs = (Ret l, fs, [])
    /\ (forall p, p ∈ l <->
          is_file fs p = true /\ exists n, child_name (dir self) p = Some n)
    /\ (is_file fs (Py.path_join (dir self) ".lock") = true ->
        Py.path_join (dir self) ".lock" ∈ l)
    /\ NoDup l
    /\ Sorted String.le l
    /\ Sorted String.le (map Py.basename l)
    /\ handled_of (trace_of (handle_existing_requests env self fs)) = l.
Proof.
  intros Hn Hd. exists (request_files self fs).
  pose proof (drain_summary env self fs Hn Hd) as (H1 & _ & H3 & H4 & _).
  apply is_normal_abs_spec in Hn.
  assert (Hel : forall p, p ∈ request_files self fs <->
                  is_file fs p = true /\ exists n, child_name (dir self) p = Some n).
  { intros p. rewrite (request_files_elem self Hn). unfold is_child.
    destruct (child_name (dir self) p) as [n|].
    - split; intros [Hf _]; (split; [exact Hf|]); [now exists n | reflexivity].
    - split; intros [Hf H]; [discriminate | destruct H; discriminate]. }
  split; [exact H1|]. split; [exact Hel|]. split.
  { intros Hlock. apply Hel. split; [assumption|]. exists ".lock".
    apply child_name_spec. split; [|reflexivity].
    apply path_join_entry; [now apply normal_abs_nonempty | reflexivity]. }
  split; [exact H4|]. split; [apply request_files_Sorted|].
  split; [now apply request_files_names_Sorted | exact H3].
Qed.

Lemma enumeration_is_sorted_regular_files_witness :
  is_normal_abs (dir Ex.handler) = true
  /\ is_dir Ex.fs0 (dir Ex.handler) = true
  /\ exists l, list_requests Ex.env0 Ex.handler Ex.fs0 = (Ret l, Ex.fs0, [])
               /\ Sorted String.le (map Py.basename l).
Proof.
  assert (H1 : is_normal_abs (dir Ex.handler) = true) by (vm_compute; reflexivity).
  assert (H2 : is_dir Ex.fs0 (dir Ex.handler) = true) by (vm_compute; reflexivity).
  split; [exact H1|]. split; [exact H2|].
  destruct (enumeration_is_sorted_regular_files Ex.env0 Ex.handler Ex.fs0 H1 H2)
    as (l & E & _ & _ & _ & _ & Hs & _).
  exists l. split; assumption.
Defined.

(** C5 as stated fails: a lock file that is present in the requests
    directory is enumerated like any other regular file. *)
Lemma enumeration_keeps_lock_file : ~ claim_C5 Ex.env0 Ex.handler Ex.fs0.
Proof.
  intros (l & E & _ & H).
  assert (E' : result_of (list_requests Ex.env0 Ex.handler Ex.fs0)
               = Ret ["/srv/requests/.lock"; "/srv/requests/a.yaml";
                      "/srv/requests/b.yaml"])
    by (vm_compute; reflexivity).
  rewrite E' in E. injection E as <-.
  destruct (proj1 (H "/srv/requests/.lock")) as (_ & _ & Hne).
  { apply list_elem_of_In. simpl. tauto. }
  apply Hne. reflexivity.
Qed.




(** * Deletion *)

Section Deletion.

Variable env : Env.
Variable self : RequestHandler.
Hypothesis Hcwd : Py.startswith (cwd env) "/" = true.

(** What [_delete_request] does, by cases on the absolute path. *)
Lemma delete_request_cases (path : string) (fs : FS) :
  let p := resolve env path in
  _delete_request env self path fs =
    if negb (is_file fs p) then
      (Ret tt, fs,
       [EvLog ERROR "Deleting request %s failed, it is not a file." [AStr p]])
    else if negb (Py.startswith p (dir self)) then
      (Exit 1, fs, [EvLog CRITICAL "Won't delete: %s" [AStr p]])
    else if remove_fails env p then
      (Ret tt, fs,
       [EvLog ERROR "Deleting request %s failed:\n%s" [AStr p; ATrace OSError]])
    else (Ret tt, delete p fs, [EvRemove p]).
Proof.
  intros p. rewrite delete_request_resolve by exact Hcwd.
  apply delete_request_resolved. now apply resolve_idem.
Qed.

End Deletion.




(** The directory check of [_delete_request] compares strings: a file
    of a sibling directory whose name continues the name of the
    requests directory passes it and is removed. *)
Lemma delete_sibling_prefix_removes :
  _delete_request Ex.env0
    {| dir := "/srv/requests"; contests := ∅ |}
    "/srv/requests_old/x.yaml" Ex.fs0
  = (Ret tt, delete "/srv/requests_old/x.yaml" Ex.fs0,
     [EvRemove "/srv/requests_old/x.yaml"]).
Proof.
  rewrite (delete_request_cases Ex.env0 _ eq_refl). reflexivity.
Qed.

(** C10.  The deletion step never hands an exception to the drain loop.
    For a file inside the requests directory whose removal fails, the
    failure is logged, the file stays, and the step returns; the drain
    goes on to handle every enumerated request.  The step ends the
    process only with status 1 and only for an existing file outside
    the requests directory. *)
Theorem delete_never_raises
    (env : Env) (self : RequestHandler) (fs : FS) (path : string) :
  Py.startswith (cwd env) "/" = true ->
  let p := resolve env path in
  let run := _delete_request env self path fs in
  (forall e, result_of run <> Raise e)
  /\ (is_file fs p = true -> Py.startswith p (dir self) = true ->
      remove_fails env p = true ->
      run = (Ret tt, fs,
             [EvLog ERROR "Deleting request %s failed:\n%s"
                    [AStr p; ATrace OSError]]))
  /\ (forall c, result_of run = Exit c ->
        c = 1%Z /\ is_file fs p = true /\ Py.startswith p (dir self) = false
        /\ fs_of run = fs)
  /\ (is_normal_abs (dir self) = true -> is_dir fs (dir self) = true ->
      let drain := handle_existing_requests env self fs in
      result_of drain = Ret tt
      /\ handled_of (trace_of drain) = request_files self fs
      /\ forall q, q ∈ request_files self fs -> remove_fails env q = true ->
           fs_of drain !! q = fs !! q).
Proof.
  intros Hcwd p run. subst run.
  rewrite (delete_request_cases env self Hcwd path fs). fold p.
  split; [|split; [|split]].
  - intros e. destruct (is_file fs p), (Py.startswith p (dir self)),
      (remove_fails env p); discriminate.
  - now intros -> -> ->.
  - intros c. destruct (is_file fs p), (Py.startswith p (dir self)),
      (remove_fails env p); simpl; try discriminate;
      intros [= <-]; auto.
  - intros Hn Hd drain.
    destruct (drain_summary env self fs Hn Hd)
      as (_ & H2 & H3 & _ & _ & H6).
    split; [exact H2|]. split; [exact H3|].
    intros q Hq Hf. subst drain. rewrite (H6 q Hq). now rewrite Hf.
Qed.

Lemma delete_never_raises_witness :
  Py.startswith (cwd Ex.env_refused) "/" = true
  /\ _delete_request Ex.env_refused Ex.handler "/srv/requests/a.yaml" Ex.fs0
     = (Ret tt, Ex.fs0,
        [EvLog ERROR "Deleting request %s failed:\n%s"
               [AStr "/srv/requests/a.yaml"; ATrace OSError]]).
Proof.
  split; [reflexivity|].
  refine (proj1 (proj2 (delete_never_raises Ex.env_refused Ex.handler Ex.fs0
                          "/srv/requests/a.yaml" eq_refl)) _ _ _);
    vm_compute; reflexivity.
Defined.

(** * Dispatch *)

Section DispatchClaims.

Variable env : Env.
Variable self : RequestHandler.

Lemma attempted_sub (plan : list Call) (c : Call) :
  In c (attempted env plan) -> In c plan.
Proof.
  induction plan as [|x plan IH]; [contradiction|]. simpl.
  intros [->|H]; [now left|].
  destruct (call_fails env x); [contradiction | right; now apply IH].
Qed.

Lemma count_contest_calls (S : list string) (c : string) :
  List.NoDup S ->
  count_occ Call_eq_dec (map contest_call S) (contest_call c)
  = if bool_decide (c ∈ S) then 1 else 0.
Proof.
  intros Hnd.
  rewrite <- (count_occ_map contest_call string_dec Call_eq_dec)
    by (intros x y [= ->]; reflexivity).
  case_bool_decide as Hc.
  - apply list_elem_of_In in Hc. now apply (NoDup_count_occ' string_dec S).
  - apply count_occ_not_In. now rewrite <- list_elem_of_In.
Qed.

Lemma result_of_bind_Ret {A B} (m : M A) (k : A -> M B) (fs fs1 : FS) (a : A)
    (t1 : list Event) :
  m fs = (Ret a, fs1, t1) -> result_of (bind m k fs) = result_of (k a fs1).
Proof. intros E. unfold bind. rewrite E. now destruct (k a fs1) as [[r f] t]. Qed.

End DispatchClaims.

(** C6 (amended).  For a Task request, when every manifest of an active
    contest reads well and lists the task path once at most, and no call
    to the update service fails: with S the active contests whose
    manifest lists the path, nothing is called when S is empty;
    otherwise [generate_task(repo, true, true)] is called once, then
    [update_contest(c, true, true, false)] once for each c in S, and no
    other contest is mentioned.  (A manifest that lists the path k times
    gets k calls; a failing call ends the sequence.) *)
Theorem task_dispatch_calls
    (env : Env) (self : RequestHandler) (fs : FS) (repo : string) :
  Py.first_segment repo = "tasks" ->
  (forall c, c ∈ contests self ->
     exists ps, manifest_paths env fs c = Some ps /\ occurrences repo ps <= 1) ->
  (forall c, call_fails env c = false) ->
  let S := List.filter (lists_task env fs repo) (elements (contests self)) in
  let calls :=
    calls_of (trace_of (_update_safely env self repo (Py.first_segment repo) fs)) in
  calls = match S with
          | [] => []
          | _ => generate_task repo true true :: map contest_call S
          end
  /\ NoDup S
  /\ (forall c, c ∈ S <-> c ∈ contests self /\ lists_task env fs repo c = true)
  /\ (S <> [] ->
      count_occ Call_eq_dec calls (generate_task repo true true) = 1
      /\ forall c, count_occ Call_eq_dec calls (contest_call c)
                   = if bool_decide (c ∈ S) then 1 else 0).
Proof.
  intros Ht Hm Hc S calls.
  assert (HS : S = List.filter (lists_task env fs repo) (elements (contests self)))
    by reflexivity.
  clearbody S.
  assert (Hsome : Forall (fun c => is_Some (manifest_paths env fs c))
                         (elements (contests self))).
  { apply Forall_forall. intros c Hin. apply elem_of_elements in Hin.
    destruct (Hm c Hin) as (ps & -> & _). eauto. }
  assert (Hone : Forall (fun c => listed_times env fs repo c <= 1)
                        (elements (contests self))).
  { apply Forall_forall. intros c Hin. apply elem_of_elements in Hin.
    destruct (Hm c Hin) as (ps & E & Hle). unfold listed_times. now rewrite E. }
  assert (Hnd : NoDup S).
  { rewrite HS.
    apply NoDup_ListNoDup, List.NoDup_filter, NoDup_ListNoDup, NoDup_elements. }
  assert (Hcalls : calls = match S with
                           | [] => []
                           | _ => generate_task repo true true :: map contest_call S
                           end).
  { subst calls. rewrite Ht, (update_safely_tasks env self repo fs Hsome).
    rewrite (flat_map_repeat_filter _ _ Hone).
    change (List.filter _ (elements (contests self)))
      with (List.filter (lists_task env fs repo) (elements (contests self))).
    rewrite <- HS. destruct S; [reflexivity|]. now apply attempted_no_failure. }
  split; [exact Hcalls|]. split; [exact Hnd|]. split.
  - intros c. subst S. rewrite list_elem_of_In, filter_In, <- list_elem_of_In.
    now rewrite elem_of_elements.
  - intros Hne. rewrite Hcalls. destruct S as [|s S']; [congruence|].
    split.
    + rewrite (count_occ_cons_eq Call_eq_dec) by reflexivity.
      f_equal. apply count_occ_not_In. intros Hin.
      apply in_map_iff in Hin as (x & Hx & _). discriminate.
    + intros c. rewrite <- (count_contest_calls (s :: S') c)
        by now apply NoDup_ListNoDup.
      rewrite (count_occ_cons_neq Call_eq_dec); [reflexivity | discriminate].
Qed.

Lemma task_dispatch_calls_witness :
  Py.first_segment "tasks/T" = "tasks"
  /\ calls_of (trace_of (_update_safely Ex.env0 Ex.handler "tasks/T"
                           (Py.first_segment "tasks/T") Ex.fs_clean))
     = [generate_task "tasks/T" true true;
        contest_call "contests/A"; contest_call "contests/B"].
Proof.
  split; [reflexivity|].
  assert (Hm : forall c, c ∈ contests Ex.handler ->
             exists ps, manifest_paths Ex.env0 Ex.fs_clean c = Some ps
                        /\ occurrences "tasks/T" ps <= 1).
  { intros c Hc. apply elem_of_list_to_set in Hc.
    change (c ∈ ["contests/A"; "contests/B"; "contests/C"]) in Hc.
    repeat (apply elem_of_cons in Hc as [->|Hc]).
    - exists [YStr "tasks/T"; YStr "tasks/U"]. split; [reflexivity | apply Nat.leb_le; reflexivity].
    - exists [YStr "tasks/T"]. split; [reflexivity | apply Nat.leb_le; reflexivity].
    - exists [YStr "tasks/V"]. split; [reflexivity | apply Nat.leb_le; reflexivity].
    - now apply elem_of_nil in Hc. }
  pose proof (proj1 (task_dispatch_calls Ex.env0 Ex.handler Ex.fs_clean
                       "tasks/T" eq_refl Hm (fun _ => eq_refl))) as H.
  rewrite H. reflexivity.
Defined.

(** C6 as stated fails: contest B lists the task twice in its manifest
    and is updated twice. *)
Lemma task_listed_twice_updates_twice :
  ~ claim_C6 Ex.env0 Ex.handler Ex.fs0 "tasks/T".
Proof.
  intros [_ H]. specialize (H "contests/B").
  assert (Hin : "contests/B" ∈ contests Ex.handler).
  { apply elem_of_list_to_set, list_elem_of_In. simpl. tauto. }
  specialize (H Hin). vm_compute in H. discriminate.
Qed.

(** C7 (amended).  For a User request [update_users()] is called once;
    the calls made are the planned sequence -- [update_users()], then
    [update_contest(c, true, true, false)] for the active contests, each
    once, in the iteration order of the set -- up to and including the
    first call that fails.  When no call fails, every active contest
    gets exactly one call, with [update_users=false]. *)
Theorem users_dispatch_calls
    (env : Env) (self : RequestHandler) (fs : FS) (repo : string) :
  Py.first_segment repo = "users" ->
  let cs := elements (contests self) in
  let calls :=
    calls_of (trace_of (_update_safely env self repo (Py.first_segment repo) fs)) in
  calls = attempted env (update_users :: map contest_call cs)
  /\ NoDup cs
  /\ (forall c, c ∈ cs <-> c ∈ contests self)
  /\ count_occ Call_eq_dec calls update_users = 1
  /\ ((forall c, call_fails env c = false) ->
      calls = update_users :: map contest_call cs
      /\ forall c, c ∈ contests self ->
           count_occ Call_eq_dec calls (contest_call c) = 1).
Proof.
  intros Ht cs calls.
  assert (Hcalls : calls = attempted env (update_users :: map contest_call cs)).
  { subst calls. rewrite Ht. apply update_safely_users. }
  assert (Hnd : NoDup cs) by apply NoDup_elements.
  split; [exact Hcalls|]. split; [exact Hnd|].
  split; [intros c; apply elem_of_elements|]. split.
  - rewrite Hcalls.
    change (attempted env (update_users :: map contest_call cs))
      with (update_users :: (if call_fails env update_users then []
                             else attempted env (map contest_call cs))).
    rewrite (count_occ_cons_eq Call_eq_dec) by reflexivity.
    f_equal. destruct (call_fails env update_users); [reflexivity|].
    apply count_occ_not_In. intros Hin. apply attempted_sub in Hin.
    apply in_map_iff in Hin as (x & Hx & _). discriminate.
  - intros Hok. rewrite Hcalls, (attempted_no_failure env _ Hok).
    split; [reflexivity|]. intros c Hc.
    rewrite (count_occ_cons_neq Call_eq_dec) by discriminate.
    rewrite (count_contest_calls cs c) by now apply NoDup_ListNoDup.
    rewrite bool_decide_true; [reflexivity | now apply elem_of_elements].
Qed.

Lemma users_dispatch_calls_witness :
  Py.first_segment "users/all" = "users"
  /\ calls_of (trace_of (_update_safely Ex.env0 Ex.handler "users/all"
                           (Py.first_segment "users/all") Ex.fs0))
     = attempted Ex.env0
         (update_users :: map contest_call (elements (contests Ex.handler))).
Proof.
  split; [reflexivity|].
  exact (proj1 (users_dispatch_calls Ex.env0 Ex.handler Ex.fs0 "users/all" eq_refl)).
Defined.

(** C7 as stated fails: when [update_users()] itself fails, no contest
    is updated. *)
Lemma users_failure_skips_contests :
  ~ claim_C7 Ex.env_down Ex.handler Ex.fs0 "users/all".
Proof.
  intros [_ H]. specialize (H "contests/A").
  assert (Hin : "contests/A" ∈ contests Ex.handler).
  { apply elem_of_list_to_set, list_elem_of_In. simpl. tauto. }
  specialize (H Hin). vm_compute in H. discriminate.
Qed.

(** * Validation *)

(** C9.  A request whose [repo] is exactly ["tasks"], ["contests"] or
    ["users"], without any slash, passes validation: its first segment
    is the whole string.  [_act] then dispatches it with that string as
    repository type, and [_update_safely] takes the branch of that type
    (never the unknown-type error); a readable request file holding it
    is handled with success. *)
Theorem bare_type_repo_is_dispatched
    (env : Env) (self : RequestHandler) (items : list (Yaml * Yaml))
    (user repo : string) :
  repo ∈ ["tasks"; "contests"; "users"] ->
  dict_lookup "user" items = Some (YStr user) ->
  dict_lookup "repo" items = Some (YStr repo) ->
  has_slash repo = false
  /\ Py.first_segment repo = repo
  /\ (forall fs, _validate_request (YDict items) fs = (Ret tt, fs, []))
  /\ (forall fs,
        _act env self (YDict items) fs
        = try_except
            (with_SafeUpdater env repo (_update_safely env self repo repo))
            (fun e => logger_error "Error while acting on %s\n%s"
                                   [AStr repo; ATrace e]) fs)
  /\ (forall fs, exists t,
        trace_of (_update_safely env self repo (Py.first_segment repo) fs)
        = branch_opening self repo :: t)
  /\ (forall path fs,
        lock_times_out env path = false ->
        fs !! resolve env path = Some (File (Some (YDict items))) ->
        result_of (handle_request env self path fs) = Ret true).
Proof.
  intros Hin Hu Hr.
  assert (Hs : has_slash repo = false).
  { repeat (apply elem_of_cons in Hin as [->|Hin]); try reflexivity.
    now apply elem_of_nil in Hin. }
  assert (Hf : Py.first_segment repo = repo) by now apply first_segment_noslash.
  assert (Hv : valid_request (YDict items)).
  { exists items, user, repo. rewrite Hf. auto. }
  split; [exact Hs|]. split; [exact Hf|].
  split; [intros fs; now apply validate_valid|].
  split; [intros fs; rewrite (act_valid env self items repo fs Hr); now rewrite Hf|].
  split.
  - intros fs. rewrite Hf. unfold branch_opening, _update_safely.
    repeat (apply elem_of_cons in Hin as [->|Hin]); eval_eqb.
    + erewrite trace_of_bind_Ret by reflexivity. eexists. reflexivity.
    + case_bool_decide.
      * erewrite trace_of_bind_Ret by reflexivity. eexists. reflexivity.
      * eexists. reflexivity.
    + erewrite trace_of_bind_Ret by reflexivity. eexists. reflexivity.
    + now apply elem_of_nil in Hin.
  - intros path fs Hl Hfile. unfold handle_request.
    erewrite result_of_bind_Ret by reflexivity.
    erewrite result_of_bind_Ret by reflexivity.
    assert (Eread : try_except
              (request <- _get_request_content env self path ;; ret (Some request))
              (fun e =>
                 logger_error "Error while opening %s\n%s" [AStr path; ATrace e] ;;
                 ret None) fs
            = (Ret (Some (YDict items)), fs,
               [EvLock (Py.path_join (dir self) ".lock");
                EvUnlock (Py.path_join (dir self) ".lock")])).
    { unfold try_except, bind, _get_request_content, lock_lock, bind, try_finally,
        open_safe_load, lock_unlock, emit, ret. now rewrite Hl, Hfile. }
    erewrite result_of_bind_Ret by exact Eread. cbv beta iota.
    assert (Eval : try_except
              (_validate_request (YDict items) ;; ret true)
              (fun e =>
                 logger_error "Error while validating %s\n%s"
                              [AStr path; ATrace e] ;;
                 ret false) fs
            = (Ret true, fs, [])).
    { unfold try_except, bind at 1. now rewrite (validate_valid (YDict items) fs Hv). }
    erewrite result_of_bind_Ret by exact Eval. cbv beta iota.
    destruct (returns_act env self (YDict items) Hv fs) as (a & t & E & _).
    erewrite result_of_bind_Ret by exact E. reflexivity.
Qed.

Lemma bare_type_repo_is_dispatched_witness :
  "users" ∈ ["tasks"; "contests"; "users"]
  /\ result_of (handle_request Ex.env0 Ex.handler "/srv/requests/sub/z.yaml" Ex.fs0)
     = Ret true.
Proof.
  assert (Hin : "users" ∈ ["tasks"; "contests"; "users"]).
  { apply list_elem_of_In. simpl. tauto. }
  split; [exact Hin|].
  refine (proj2 (proj2 (proj2 (proj2 (proj2
            (bare_type_repo_is_dispatched Ex.env0 Ex.handler
               [(YStr "user", YStr "dana"); (YStr "repo", YStr "users")]
               "dana" "users" Hin eq_refl eq_refl)))))
            "/srv/requests/sub/z.yaml" Ex.fs0 eq_refl _).
  reflexivity.
Defined.

(** * The watch *)

(** What the daemon does once started, whatever happens around it: it
    logs twice and returns to waiting; no request is entered, nothing is
    called, removed or slept on. *)
Lemma main_never_drains (env : Env) (steps : list Step) (fs : FS) :
  handled_of (trace_of (main env steps fs)) = []
  /\ calls_of (trace_of (main env steps fs)) = []
  /\ removed_of (trace_of (main env steps fs)) = []
  /\ fs_of (main env steps fs)
     = if is_dir fs (resolve env (REQUESTS_DIR env)) then outside_steps steps fs
       else fs.
Proof.
  rewrite main_spec.
  now destruct (is_dir fs (resolve env (REQUESTS_DIR env))).
Qed.


(** C4 (code at the failing input).  While [watch_forever] runs with its
    mask [IN_CREATE], a producer writes a request file and the kernel
    raises IN_CREATE and IN_CLOSE_WRITE for it: the close-write event is
    not in the mask and is not delivered, the create event has no
    handler method, so no drain happens and the new file stays, against
    the docstring of [process_IN_CLOSE_WRITE]. *)
Theorem watch_ignores_close_write :
  let steps := [FsWrite "/srv/requests/c.yaml" (Ex.request "dana" "users/all");
                Kernel (Ex.create "c.yaml");
                Kernel (Ex.close_write "c.yaml")] in
  watch_forever Ex.env0 Ex.handler steps Ex.fs_one
  = (Ret tt, <["/srv/requests/c.yaml" := Ex.request "dana" "users/all"]> Ex.fs_one,
     [EvLog INFO "Watching directory forever..." []])
  /\ handled_of (trace_of (process_IN_CLOSE_WRITE Ex.env0 Ex.handler
                             (Ex.close_write "c.yaml")
                             (<["/srv/requests/c.yaml" :=
                                  Ex.request "dana" "users/all"]> Ex.fs_one)))
     = ["/srv/requests/a.yaml"; "/srv/requests/c.yaml"].
Proof.
  split; [now rewrite watch_forever_spec|].
  vm_compute. reflexivity.
Qed.

(** * Further properties of the handler *)

Section Reading.

Variable env : Env.
Variable self : RequestHandler.

(** [_get_request_content]: the directory lock is released whenever it
    was taken, also when the file is missing or does not parse; when the
    lock times out nothing is locked and the file is not read. *)
Theorem request_content_releases_lock (path : string) (fs : FS) :
  let lock_path := Py.path_join (dir self) ".lock" in
  _get_request_content env self path fs
  = (read_result env fs path, fs,
     if lock_times_out env path then []
     else [EvLock lock_path; EvUnlock lock_path]).
Proof.
  unfold _get_request_content, read_result, lock_lock, bind, try_finally,
    open_safe_load, lock_unlock, emit, raise.
  destruct (lock_times_out env path); [reflexivity|]. simpl.
  now destruct (fs !! resolve env path) as [[|[y|]]|].
Qed.

Lemma read_step (path : string) (fs : FS) :
  try_except
    (request <- _get_request_content env self path ;; ret (Some request))
    (fun e =>
       logger_error "Error while opening %s\n%s" [AStr path; ATrace e] ;;
       ret None) fs
  = match read_result env fs path with
    | Ret y => (Ret (Some y), fs,
                [EvLock (Py.path_join (dir self) ".lock");
                 EvUnlock (Py.path_join (dir self) ".lock")])
    | Raise e =>
        (Ret None, fs,
         (if lock_times_out env path then []
          else [EvLock (Py.path_join (dir self) ".lock");
                EvUnlock (Py.path_join (dir self) ".lock")])
         ++ [EvLog ERROR "Error while opening %s\n%s" [AStr path; ATrace e]])
    | Exit c => (Exit c, fs, [])
    end.
Proof.
  unfold try_except, bind at 1. rewrite request_content_releases_lock.
  unfold read_result.
  destruct (lock_times_out env path); [reflexivity|].
  now destruct (fs !! resolve env path) as [[|[y|]]|].
Qed.

Lemma handle_request_unfold (path : string) (fs : FS) :
  handle_request env self path fs
  = bind (emit (EvHandle path)) (fun _ =>
      bind (logger_info "Starting to handle %s" [AStr (Py.basename path)]) (fun _ =>
        bind (try_except
                (request <- _get_request_content env self path ;; ret (Some request))
                (fun e =>
                   logger_error "Error while opening %s\n%s" [AStr path; ATrace e] ;;
                   ret None))
             (fun r =>
                match r with
                | None => ret false
                | Some request =>
                    v <- try_except
                           (_validate_request request ;; ret true)
                           (fun e =>
                              logger_error "Error while validating %s\n%s"
                                           [AStr path; ATrace e] ;;
                              ret false) ;;
                    if v then _act env self request ;; ret true else ret false
                end))) fs.
Proof. reflexivity. Qed.

(** [handle_request] on a file that cannot be read -- the lock times
    out, the file is gone, or it does not parse -- logs the error,
    makes no call and reports failure. *)
Theorem handle_request_unreadable (path : string) (fs : FS) (e : Exn) :
  read_result env fs path = Raise e ->
  handle_request env self path fs
  = (Ret false, fs,
     handle_prologue path
     ++ (if lock_times_out env path then []
         else [EvLock (Py.path_join (dir self) ".lock");
               EvUnlock (Py.path_join (dir self) ".lock")])
     ++ [EvLog ERROR "Error while opening %s\n%s" [AStr path; ATrace e]]).
Proof.
  intros Hr. rewrite handle_request_unfold.
  unfold bind at 1, emit. unfold bind at 1, logger_info, emit.
  unfold bind at 1. rewrite read_step, Hr. simpl.
  now rewrite app_nil_r.
Qed.

(** [handle_request] on a readable file: the verdict is [True] exactly
    when the content is a valid request, whatever the update service
    does with it afterwards; an invalid request is rejected with one
    error log, before any scope is opened or any call is made. *)
Theorem handle_request_verdict (path : string) (fs : FS) (y : Yaml) :
  read_result env fs path = Ret y ->
  (valid_request y ->
   result_of (handle_request env self path fs) = Ret true)
  /\ (~ valid_request y ->
      exists msg,
        handle_request env self path fs
        = (Ret false, fs,
           handle_prologue path
           ++ [EvLock (Py.path_join (dir self) ".lock");
               EvUnlock (Py.path_join (dir self) ".lock");
               EvLog ERROR "Error while validating %s\n%s"
                     [AStr path; ATrace (Exception msg)]])).
Proof.
  intros Hr. rewrite handle_request_unfold. split.
  - intros Hv.
    erewrite result_of_bind_Ret by reflexivity.
    erewrite result_of_bind_Ret by reflexivity.
    erewrite result_of_bind_Ret by (rewrite read_step, Hr; reflexivity).
    cbv beta iota.
    erewrite result_of_bind_Ret
      by (unfold try_except, bind at 1; rewrite (validate_valid y fs Hv);
          reflexivity).
    cbv beta iota.
    destruct (returns_act env self y Hv fs) as (a & t & E & _).
    erewrite result_of_bind_Ret by exact E. reflexivity.
  - intros Hv.
    assert (Hraise : exists msg,
               _validate_request y fs = (Raise (Exception msg), fs, [])).
    { clear Hr. unfold _validate_request, has_key, getitem, bind, ret, raise, as_str.
      destruct y as [| | | |?|items]; simpl; eauto.
      destruct (dict_lookup "user" items) as [user|] eqn:Hu; simpl; eauto.
      destruct user as [| | |user| |]; simpl; eauto.
      destruct (dict_lookup "repo" items) as [repo|] eqn:Hrepo; simpl; eauto.
      destruct repo as [| | |repo| |]; simpl; eauto.
      case_bool_decide as Ht; simpl; eauto.
      destruct Hv. now exists items, user, repo. }
    destruct Hraise as (msg & Em). exists msg.
    unfold bind at 1, emit. unfold bind at 1, logger_info, emit.
    unfold bind at 1. rewrite read_step, Hr.
    unfold bind at 1, try_except, bind at 1. rewrite Em.
    reflexivity.
Qed.

End Reading.

(** * Further properties of validation and dispatch *)

Lemma classic_valid (request : Yaml) :
  valid_request request \/ ~ valid_request request.
Proof.
  destruct request as [| | | |?|items];
    try (right; intros (i & u & r & [=] & _); fail).
  destruct (dict_lookup "user" items) as [user|] eqn:Hu;
    [|right; intros (i & u & r & [= <-] & Hu' & _); congruence].
  destruct user as [| | |user| |];
    try (right; intros (i & u & r & [= <-] & Hu' & _); congruence).
  destruct (dict_lookup "repo" items) as [repo|] eqn:Hr;
    [|right; intros (i & u & r & [= <-] & _ & Hr' & _); congruence].
  destruct repo as [| | |repo| |];
    try (right; intros (i & u & r & [= <-] & _ & Hr' & _); congruence).
  destruct (decide (Py.first_segment repo ∈ ["tasks"; "contests"; "users"])) as [Ht|Ht].
  - left. now exists items, user, repo.
  - right. intros (i & u & r & [= <-] & _ & Hr' & Ht'). congruence.
Qed.

(** [_validate_request] accepts exactly the dictionaries with a string
    ["user"], a string ["repo"] and a first segment of [repo] among the
    three types; everything else is rejected with an [Exception], never
    with a [KeyError] or [TypeError] of the lookups it makes. *)
Theorem validate_request_accepts_exactly (request : Yaml) (fs : FS) :
  (valid_request request /\ _validate_request request fs = (Ret tt, fs, []))
  \/ (~ valid_request request
      /\ exists msg, _validate_request request fs = (Raise (Exception msg), fs, [])).
Proof.
  destruct (classic_valid request) as [Hv|Hv].
  - left. split; [exact Hv | now apply validate_valid].
  - right. split; [exact Hv|].
    unfold _validate_request, has_key, getitem, bind, ret, raise, as_str.
    destruct request as [| | | |?|items]; simpl; eauto.
    destruct (dict_lookup "user" items) as [user|] eqn:Hu; simpl; eauto.
    destruct user as [| | |user| |]; simpl; eauto.
    destruct (dict_lookup "repo" items) as [repo|] eqn:Hrepo; simpl; eauto.
    destruct repo as [| | |repo| |]; simpl; eauto.
    case_bool_decide as Ht; simpl; eauto.
    destruct Hv. now exists items, user, repo.
Qed.

Section DispatchMore.

Variable env : Env.
Variable self : RequestHandler.

Hint Resolve quiet_getitem quiet_as_str quiet_iter_items quiet_open_safe_load
  quiet_call quiet_get_request_content quiet_validate_request
  quiet_update_safely quiet_with_SafeUpdater : quiet.


(** A Contest request updates that contest alone, users included, when
    it is an active contest; otherwise nothing is called and a warning
    is logged. *)
Theorem contest_dispatch_calls (repo : string) (fs : FS) :
  Py.first_segment repo = "contests" ->
  let run := _update_safely env self repo (Py.first_segment repo) fs in
  calls_of (trace_of run)
  = (if bool_decide (repo ∈ contests self)
     then [update_contest repo true true true] else [])
  /\ (repo ∉ contests self ->
      run = (Ret tt, fs,
             [EvLog WARNING "Not updating contest %s because it is not active."
                    [AStr repo]])).
Proof.
  intros Ht run. subst run. rewrite Ht.
  split; [apply update_safely_contests|].
  intros Hn. unfold _update_safely. eval_eqb.
  now rewrite bool_decide_false.
Qed.

Lemma no_plain_ret {A} (a : A) : no_plain (ret a).
Proof. intros fs (msg & H). discriminate. Qed.

Lemma no_plain_emit (e : Event) : no_plain (emit e).
Proof. intros fs (msg & H). discriminate. Qed.

Lemma no_plain_bind {A B} (m : M A) (k : A -> M B) :
  no_plain m -> (forall a, no_plain (k a)) -> no_plain (bind m k).
Proof.
  intros Hm Hk fs. specialize (Hm fs). unfold bind.
  destruct (m fs) as [[[a|e|c] fs1] t1].
  - specialize (Hk a fs1). now destruct (k a fs1) as [[r fs2] t2].
  - intros (msg & [= ->]). apply Hm. now exists msg.
  - intros (msg & [=]).
Qed.

Lemma no_plain_for_each {A} (l : list A) (body : A -> M unit) :
  (forall x, no_plain (body x)) -> no_plain (for_each l body).
Proof.
  intros H. induction l as [|x l IH]; simpl.
  - apply no_plain_ret.
  - apply no_plain_bind; auto.
Qed.

Lemma no_plain_call (c : Call) : no_plain (call env c).
Proof.
  intros fs (msg & H). rewrite call_spec in H.
  destruct (call_fails env c); discriminate.
Qed.

Lemma no_plain_getitem (d : Yaml) (k : string) : no_plain (getitem d k).
Proof.
  intros fs (msg & H). destruct d; try discriminate.
  simpl in H. destruct (dict_lookup k items); discriminate.
Qed.

Lemma no_plain_iter_items (y : Yaml) : no_plain (iter_items y).
Proof. intros fs (msg & H). destruct y; discriminate. Qed.

Lemma no_plain_open (p : string) : no_plain (open_safe_load env p).
Proof.
  intros fs (msg & H). unfold open_safe_load in H.
  destruct (fs !! resolve env p) as [[|[y|]]|]; discriminate.
Qed.

Lemma no_plain_matching (repo contest : string) (tasks : list Yaml) :
  no_plain (matching_entries repo contest tasks).
Proof.
  induction tasks as [|t ts IH]; simpl; [apply no_plain_ret|].
  apply no_plain_bind; [apply no_plain_getitem | intros p].
  apply no_plain_bind; [exact IH | intros more; apply no_plain_ret].
Qed.

Lemma no_plain_task_contests (repo : string) (cs : list string) :
  no_plain (task_contests_loop env repo cs).
Proof.
  induction cs as [|c cs IH]; simpl; [apply no_plain_ret|].
  apply no_plain_bind; [apply no_plain_open | intros y].
  apply no_plain_bind; [apply no_plain_getitem | intros tasks].
  apply no_plain_bind; [apply no_plain_iter_items | intros items].
  apply no_plain_bind; [apply no_plain_matching | intros found].
  apply no_plain_bind; [exact IH | intros more; apply no_plain_ret].
Qed.

Lemma no_plain_contest_body (m1 m2 c : string) :
  no_plain (logger_info m1 [AStr c] ;;
            call env (update_contest c true true false) ;;
            logger_info m2 [AStr c]).
Proof.
  apply no_plain_bind; [apply no_plain_emit | intros _].
  apply no_plain_bind; [apply no_plain_call | intros _; apply no_plain_emit].
Qed.


(** A Task request cannot be served while the manifest of any active
    contest is unreadable: the resolver raises, so nothing is generated
    and no contest is updated, also not those whose manifest reads well
    and lists the task. *)
Theorem unreadable_manifest_blocks_task (repo : string) (fs : FS) :
  Exists (fun c => manifest_paths env fs c = None) (elements (contests self)) ->
  let run := _update_safely env self repo "tasks" fs in
  calls_of (trace_of run) = [] /\ exists e, result_of run = Raise e.
Proof.
  intros Hex run.
  assert (Hloop : forall cs,
            Exists (fun c => manifest_paths env fs c = None) cs ->
            exists e, task_contests_loop env repo cs fs = (Raise e, fs, [])).
  { clear Hex run. induction cs as [|c cs IH]; intros Hex.
    - inversion Hex.
    - simpl. destruct (manifest_paths env fs c) as [ps|] eqn:Hc.
      + assert (Hrest : Exists (fun c => manifest_paths env fs c = None) cs).
        { inversion Hex; subst; [congruence | assumption]. }
        destruct (IH Hrest) as (e & Ee). exists e. clear IH Hex Hrest.
        unfold manifest_paths in Hc. unfold bind at 1, open_safe_load.
        destruct (fs !! _) as [[|[[| | | | |items]|]]|]; try discriminate.
        unfold bind at 1, getitem.
        destruct (dict_lookup "tasks" items) as [tasks|]; [|discriminate].
        unfold ret at 1. unfold bind at 1.
        destruct tasks as [| | |s|tasks|kvs]; try discriminate; simpl iter_items;
          unfold ret at 1; unfold bind at 1;
          rewrite (matching_entries_spec repo c _ ps fs Hc);
          unfold bind at 1; rewrite Ee; reflexivity.
      + clear IH Hex. unfold manifest_paths in Hc. unfold bind at 1, open_safe_load.
        destruct (fs !! _) as [[|[y|]]|]; try (eexists; reflexivity).
        destruct y as [| | | | |items]; try (eexists; reflexivity).
        unfold bind at 1, getitem.
        destruct (dict_lookup "tasks" items) as [tasks|]; [|eexists; reflexivity].
        unfold ret at 1.
        assert (Hm : forall ts, entry_paths ts = None ->
                  exists e, matching_entries repo c ts fs = (Raise e, fs, [])).
        { induction ts as [|t ts IHt]; [discriminate|]. simpl. intros Ht.
          unfold bind at 1, getitem.
          destruct t as [| | | | |its]; simpl in Ht; try (eexists; reflexivity).
          destruct (dict_lookup "path" its) as [p|]; [|eexists; reflexivity].
          unfold ret at 1. destruct (entry_paths ts) as [ps|]; [discriminate|].
          destruct (IHt eq_refl) as (e & Ee). exists e.
          unfold bind at 1. now rewrite Ee. }
        destruct tasks as [| | |s|ts|kvs]; try (eexists; reflexivity);
          simpl iter_items; unfold ret at 1; unfold bind at 1, bind at 1;
          destruct (Hm _ Hc) as (e & Ee); exists e; now rewrite Ee. }
  destruct (Hloop _ Hex) as (e & Ee).
  subst run. unfold _update_safely. eval_eqb. split.
  - erewrite trace_of_bind_Ret by reflexivity.
    erewrite trace_of_bind_Raise by (unfold _get_task_contests; exact Ee).
    reflexivity.
  - exists e. erewrite result_of_bind_Ret by reflexivity.
    unfold bind, _get_task_contests. now rewrite Ee.
Qed.

End DispatchMore.

(** * Further properties of the drain and the watch *)


(** The paths a drain builds from the names of the directory are their
    own absolute form and start with the directory: the directory check
    of the deletion step holds for every one of them, and the name is
    recovered as the base name. *)
Theorem listed_paths_pass_directory_check (cwd d n : string) :
  is_normal_abs d = true ->
  is_entry_name n = true ->
  let p := Py.path_join d n in
  Py.abspath cwd p = p
  /\ Py.startswith p d = true
  /\ Py.basename p = n
  /\ child_name d p = Some n.
Proof.
  intros Hd Hn p. apply is_normal_abs_spec in Hd.
  destruct (path_join_normal_abs d n Hd Hn) as [H1 H2].
  assert (E : p = dir_prefix d +:+ n)
    by (apply path_join_entry; auto using normal_abs_nonempty).
  split; [now apply normal_abs_abspath|]. split; [exact H2|].
  split; [rewrite E; now apply basename_entry|].
  apply child_name_spec. now split.
Qed.

(** A repository ["<type>/<rest>"] has the type before its first slash,
    whatever follows it, and passes validation for the three types. *)
Theorem typed_repo_validates
    (items : list (Yaml * Yaml)) (user t rest : string) (fs : FS) :
  t ∈ ["tasks"; "contests"; "users"] ->
  dict_lookup "user" items = Some (YStr user) ->
  dict_lookup "repo" items = Some (YStr (t +:+ "/" +:+ rest)) ->
  Py.first_segment (t +:+ "/" +:+ rest) = t
  /\ _validate_request (YDict items) fs = (Ret tt, fs, []).
Proof.
  intros Ht Hu Hr.
  assert (Hs : has_slash t = false).
  { repeat (apply elem_of_cons in Ht as [->|Ht]); try reflexivity.
    now apply elem_of_nil in Ht. }
  assert (Hf : Py.first_segment (t +:+ "/" +:+ rest) = t).
  { unfold Py.first_segment. change ("/" +:+ rest) with (String "/" rest).
    now rewrite split_slash_app, (split_slash_noslash t Hs). }
  split; [exact Hf|]. apply validate_valid.
  exists items, user, (t +:+ "/" +:+ rest). now rewrite Hf.
Qed.

Section DrainMore.

Variable env : Env.
Variable self : RequestHandler.

(** Without the requests directory the drain does not fail softly:
    [os.listdir] raises and the exception leaves
    [handle_existing_requests]. *)
Theorem drain_raises_without_directory (fs : FS) :
  is_dir fs (resolve env (dir self)) = false ->
  handle_existing_requests env self fs
  = (Raise OSError, fs,
     [EvLog INFO "Going to handle all existing requests." []]).
Proof.
  intros Hd. unfold handle_existing_requests, bind at 1, logger_info, emit.
  unfold bind at 1, list_requests, bind at 1, os_listdir. now rewrite Hd.
Qed.

(** A drain over a directory without regular files does nothing: two
    log lines, no call, no sleep, the file system as it was. *)
Theorem drain_of_empty_directory (fs : FS) :
  is_normal_abs (dir self) = true ->
  is_dir fs (dir self) = true ->
  (forall p, is_child (dir self) p = true -> is_file fs p = false) ->
  handle_existing_requests env self fs
  = (Ret tt, fs,
     [EvLog INFO "Going to handle all existing requests." [];
      EvLog INFO "Found %s files to handle." [ANum 0]]).
Proof.
  intros Hn Hd Hempty. apply is_normal_abs_spec in Hn.
  assert (E : request_files self fs = []).
  { destruct (request_files self fs) as [|p l] eqn:El; [reflexivity|].
    assert (Hp : p ∈ request_files self fs) by (rewrite El; left).
    apply (request_files_elem self Hn) in Hp as [Hf Hc].
    rewrite (Hempty p Hc) in Hf. discriminate. }
  unfold handle_existing_requests, bind at 1, logger_info, emit.
  unfold bind at 1. rewrite (list_requests_spec env self Hn fs Hd), E.
  reflexivity.
Qed.


Lemma StronglySorted_filter {A} (R : A -> A -> Prop) (f : A -> bool) (l : list A) :
  StronglySorted R l -> StronglySorted R (List.filter f l).
Proof.
  induction 1 as [|x l Hl IH Hx]; simpl; [constructor|].
  destruct (f x); [|exact IH]. constructor; [exact IH|].
  apply List.Forall_forall. intros y Hy. apply filter_In in Hy as [Hy _].
  eapply List.Forall_forall in Hx; eauto.
Qed.

(** What a drain leaves for the next one: exactly the requests whose
    removal was refused, in the same order.  When no removal is refused
    a second drain finds nothing. *)
Theorem next_drain_sees_refused_files (fs : FS) :
  is_normal_abs (dir self) = true ->
  is_dir fs (dir self) = true ->
  let fs' := fs_of (handle_existing_requests env self fs) in
  request_files self fs' = List.filter (remove_fails env) (request_files self fs)
  /\ is_dir fs' (dir self) = true
  /\ ((forall p, remove_fails env p = false) -> request_files self fs' = []).
Proof.
  intros Hn Hd fs'. apply is_normal_abs_spec in Hn.
  destruct (drain_spec env self Hn fs Hd) as (t & E & _).
  subst fs'. rewrite E. unfold fs_of. simpl.
  set (l := request_files self fs).
  set (fs' := after_removals env fs l).
  assert (Hfile : forall p, is_file fs' p = true <->
                    is_file fs p = true /\ (p ∈ l -> remove_fails env p = true)).
  { intros p. unfold is_file, fs'. rewrite after_removals_lookup.
    destruct (decide (p ∈ l)) as [Hp|Hp].
    - rewrite (bool_decide_true _ Hp). destruct (remove_fails env p); simpl.
      + tauto.
      + split; [discriminate|]. intros [_ H]. now specialize (H Hp).
    - rewrite (bool_decide_false _ Hp). simpl. tauto. }
  assert (Hdir : is_dir fs' (dir self) = true).
  { unfold is_dir, fs' in *. rewrite after_removals_lookup.
    destruct (decide (dir self ∈ l)) as [Hp|Hp].
    - apply (request_files_elem self Hn) in Hp as [Hf _].
      unfold is_file in Hf. now destruct (fs !! dir self) as [[|?]|].
    - now rewrite (bool_decide_false _ Hp). }
  assert (Heq : request_files self fs' = List.filter (remove_fails env) l).
  { apply (StronglySorted_unique String.le).
    - apply StronglySorted_merge_sort; apply _.
    - apply StronglySorted_filter. apply StronglySorted_merge_sort; apply _.
    - apply NoDup_Permutation.
      + now apply request_files_NoDup.
      + apply NoDup_ListNoDup, List.NoDup_filter, NoDup_ListNoDup.
        now apply request_files_NoDup.
      + intros p. split.
        * intros Hp. apply (request_files_elem self Hn) in Hp as [Hf Hc].
          apply Hfile in Hf as [Hf Hr].
          assert (Hl : p ∈ l) by (apply (request_files_elem self Hn); auto).
          apply list_elem_of_In, filter_In.
          split; [now apply list_elem_of_In | auto].
        * intros Hp. apply list_elem_of_In, filter_In in Hp as [Hl Hr].
          apply list_elem_of_In in Hl. pose proof Hl as Hl'.
          apply (request_files_elem self Hn) in Hl' as [Hf Hc].
          apply (request_files_elem self Hn).
          split; [apply Hfile; auto | exact Hc]. }
  split; [exact Heq|]. split; [exact Hdir|].
  intros Hok. rewrite Heq. clear -Hok.
  induction l as [|p l IH]; [reflexivity|]. simpl. now rewrite Hok.
Qed.

(** [process_IN_CLOSE_WRITE] uses the event only for one log line: it
    drains the whole directory, whichever file the event names. *)
Theorem close_write_drains_everything (event : InotifyEvent) (fs : FS) :
  is_normal_abs (dir self) = true ->
  is_dir fs (dir self) = true ->
  let run := process_IN_CLOSE_WRITE env self event fs in
  let drain := handle_existing_requests env self fs in
  trace_of run
  = EvLog INFO "Received new request: %s" [AStr (Py.basename (ev_pathname event))]
    :: trace_of drain
  /\ fs_of run = fs_of drain
  /\ result_of run = Ret tt
  /\ handled_of (trace_of run) = request_files self fs.
Proof.
  intros Hn Hd run drain. subst run drain.
  destruct (drain_summary env self fs Hn Hd) as (_ & H2 & H3 & _).
  unfold process_IN_CLOSE_WRITE, bind, logger_info, emit.
  destruct (handle_existing_requests env self fs) as [[r fs1] t].
  unfold trace_of, fs_of, result_of in *. simpl in *.
  now subst r.
Qed.

(** With the mask [IN_CREATE] that [watch_forever] registers, nothing
    that happens in the directory reaches the handler: whatever other
    processes write and whatever events the kernel raises, the loop
    handles no request, calls nothing and removes nothing. *)
Theorem watch_never_invokes_handler (steps : list Step) (fs : FS) :
  watch_forever env self steps fs
  = (Ret tt, outside_steps steps fs,
     [EvLog INFO "Watching directory forever..." []]).
Proof.
  unfold watch_forever, bind, logger_info, emit.
  now rewrite watch_loop_in_create.
Qed.


End DrainMore.

(** * Instances *)

Lemma handle_request_verdict_witness :
  read_result Ex.env_down Ex.fs0 "/srv/requests/b.yaml"
  = Ret (YDict [(YStr "user", YStr "dana"); (YStr "repo", YStr "users/all")])
  /\ result_of (handle_request Ex.env_down Ex.handler "/srv/requests/b.yaml" Ex.fs0)
     = Ret true.
Proof.
  assert (H : read_result Ex.env_down Ex.fs0 "/srv/requests/b.yaml"
              = Ret (YDict [(YStr "user", YStr "dana"); (YStr "repo", YStr "users/all")]))
    by reflexivity.
  split; [exact H|].
  apply (proj1 (handle_request_verdict Ex.env_down Ex.handler
                  "/srv/requests/b.yaml" Ex.fs0 _ H)).
  exists [(YStr "user", YStr "dana"); (YStr "repo", YStr "users/all")],
    "dana", "users/all".
  repeat split. apply list_elem_of_In. simpl. tauto.
Defined.

Lemma handle_request_unreadable_witness :
  read_result env_locked Ex.fs0 "/srv/requests/b.yaml" = Raise TimeoutError
  /\ handle_request env_locked Ex.handler "/srv/requests/b.yaml" Ex.fs0
     = (Ret false, Ex.fs0,
        [EvHandle "/srv/requests/b.yaml";
         EvLog INFO "Starting to handle %s" [AStr "b.yaml"];
         EvLog ERROR "Error while opening %s\n%s"
               [AStr "/srv/requests/b.yaml"; ATrace TimeoutError]]).
Proof.
  split; [reflexivity|].
  exact (handle_request_unreadable env_locked Ex.handler "/srv/requests/b.yaml"
           Ex.fs0 TimeoutError eq_refl).
Defined.


Lemma contest_dispatch_calls_witness :
  Py.first_segment "contests/A" = "contests"
  /\ calls_of (trace_of (_update_safely Ex.env0 Ex.handler "contests/A"
                           (Py.first_segment "contests/A") Ex.fs0))
     = [update_contest "contests/A" true true true].
Proof.
  split; [reflexivity|].
  exact (proj1 (contest_dispatch_calls Ex.env0 Ex.handler "contests/A" Ex.fs0 eq_refl)).
Defined.

Lemma unreadable_manifest_blocks_task_witness :
  Exists (fun c => manifest_paths Ex.env0 Ex.fs_one c = None)
         (elements (contests Ex.handler))
  /\ calls_of (trace_of (_update_safely Ex.env0 Ex.handler "tasks/T" "tasks" Ex.fs_one))
     = [].
Proof.
  assert (H : Exists (fun c => manifest_paths Ex.env0 Ex.fs_one c = None)
                     (elements (contests Ex.handler))).
  { apply Exists_exists. exists "contests/A". split; [|reflexivity].
    apply elem_of_elements, elem_of_list_to_set, list_elem_of_In. simpl. tauto. }
  split; [exact H|].
  exact (proj1 (unreadable_manifest_blocks_task Ex.env0 Ex.handler "tasks/T"
                  Ex.fs_one H)).
Defined.

Lemma listed_paths_pass_directory_check_witness :
  is_normal_abs "/srv/requests" = true
  /\ is_entry_name "a.yaml" = true
  /\ Py.abspath "/home/cms" (Py.path_join "/srv/requests" "a.yaml")
     = Py.path_join "/srv/requests" "a.yaml".
Proof.
  split; [reflexivity|]. split; [reflexivity|].
  exact (proj1 (listed_paths_pass_directory_check "/home/cms" "/srv/requests"
                  "a.yaml" eq_refl eq_refl)).
Defined.

Lemma typed_repo_validates_witness :
  "tasks" ∈ ["tasks"; "contests"; "users"]
  /\ Py.first_segment ("tasks" +:+ "/" +:+ "2017/sum/") = "tasks".
Proof.
  assert (Hin : "tasks" ∈ ["tasks"; "contests"; "users"]) by left.
  split; [exact Hin|].
  exact (proj1 (typed_repo_validates
                  [(YStr "user", YStr "dana"); (YStr "repo", YStr "tasks/2017/sum/")]
                  "dana" "tasks" "2017/sum/" Ex.fs0 Hin eq_refl eq_refl)).
Defined.

Lemma drain_raises_without_directory_witness :
  is_dir (∅ : FS) (resolve Ex.env0 (dir Ex.handler)) = false
  /\ result_of (handle_existing_requests Ex.env0 Ex.handler ∅) = Raise OSError.
Proof.
  assert (H : is_dir (∅ : FS) (resolve Ex.env0 (dir Ex.handler)) = false)
    by reflexivity.
  split; [exact H|].
  now rewrite (drain_raises_without_directory Ex.env0 Ex.handler ∅ H).
Defined.

Lemma fs_empty_no_files (p : string) : is_file fs_empty p = false.
Proof.
  unfold is_file, fs_empty. rewrite !lookup_insert.
  repeat case_decide; rewrite ?lookup_empty; reflexivity.
Qed.

Lemma drain_of_empty_directory_witness :
  is_normal_abs (dir Ex.handler) = true
  /\ is_dir fs_empty (dir Ex.handler) = true
  /\ trace_of (handle_existing_requests Ex.env0 Ex.handler fs_empty)
     = [EvLog INFO "Going to handle all existing requests." [];
        EvLog INFO "Found %s files to handle." [ANum 0]].
Proof.
  assert (H1 : is_normal_abs (dir Ex.handler) = true) by reflexivity.
  assert (H2 : is_dir fs_empty (dir Ex.handler) = true) by reflexivity.
  split; [exact H1|]. split; [exact H2|].
  now rewrite (drain_of_empty_directory Ex.env0 Ex.handler fs_empty
                 H1 H2 (fun p _ => fs_empty_no_files p)).
Defined.


Lemma next_drain_sees_refused_files_witness :
  is_normal_abs (dir Ex.handler) = true
  /\ is_dir Ex.fs0 (dir Ex.handler) = true
  /\ request_files Ex.handler
       (fs_of (handle_existing_requests Ex.env_refused Ex.handler Ex.fs0))
     = List.filter (remove_fails Ex.env_refused) (request_files Ex.handler Ex.fs0).
Proof.
  assert (H1 : is_normal_abs (dir Ex.handler) = true) by reflexivity.
  assert (H2 : is_dir Ex.fs0 (dir Ex.handler) = true) by (vm_compute; reflexivity).
  split; [exact H1|]. split; [exact H2|].
  exact (proj1 (next_drain_sees_refused_files Ex.env_refused Ex.handler Ex.fs0 H1 H2)).
Defined.

Lemma close_write_drains_everything_witness :
  is_normal_abs (dir Ex.handler) = true
  /\ is_dir Ex.fs0 (dir Ex.handler) = true
  /\ handled_of (trace_of (process_IN_CLOSE_WRITE Ex.env0 Ex.handler
                             (Ex.close_write "b.yaml") Ex.fs0))
     = request_files Ex.handler Ex.fs0.
Proof.
  assert (H1 : is_normal_abs (dir Ex.handler) = true) by reflexivity.
  assert (H2 : is_dir Ex.fs0 (dir Ex.handler) = true) by (vm_compute; reflexivity).
  split; [exact H1|]. split; [exact H2|].
  exact (proj2 (proj2 (proj2
           (close_write_drains_everything Ex.env0 Ex.handler
              (Ex.close_write "b.yaml") Ex.fs0 H1 H2)))).
Defined.

